(** * Scoring a trained CNTK model with PySpark: the notebook's own functions

    A shallow embedding of the code cells of
    [CNTK_model_scoring_on_Spark_walkthrough.ipynb]: [reshape_image], the
    mean-image setup, [get_preprocessed_image], [run_worker], the accuracy
    cell and the confusion-matrix cell, together with the part of numpy
    they call ([reshape], [transpose], [[:, :, ::-1]], [astype], the
    in-place [-=] with broadcasting, [argmax]). *)

From Stdlib Require Import ZArith QArith Lia String.
From stdpp Require Import base list sorting gmap.

Local Open Scope nat_scope.

(** ** Python exceptions and results *)

Inductive exn : Type :=
  | ValueError
  | IndexError
  | KeyError
  | ZeroDivisionError
  | ExternalError (msg : string).

Inductive result (A : Type) : Type :=
  | Ok (a : A)
  | Raise (e : exn).
Arguments Ok {A} a.
Arguments Raise {A} e.

#[global] Instance result_ret : MRet result := λ A a, Ok a.
#[global] Instance result_bind : MBind result := λ A B f r,
  match r with
  | Ok a => f a
  | Raise e => Raise e
  end.

(** ** numpy arrays

    An array is its shape together with its elements in C (row-major)
    order.  Views (transposes, reversed slices) are modelled by the
    elements they show, in C order, which is what every later numpy call of
    the notebook reads. *)

Record ndarray (A : Type) : Type := mk_ndarray {
  shape : list nat;
  data : list A
}.
Arguments mk_ndarray {A} shape data.
Arguments shape {A} _.
Arguments data {A} _.

(** [np.prod(shape)] *)
Definition size (s : list nat) : nat := foldr Nat.mul 1 s.

Definition well_formed {A} (a : ndarray A) : Prop :=
  length (data a) = size (shape a).

(** A one-dimensional array holding [l]. *)
Definition array {A} (l : list A) : ndarray A :=
  mk_ndarray [length l] l.

(** [a.reshape(s)]: same elements in C order, new shape; numpy raises
    ValueError when the sizes differ. *)
Definition reshape {A} (s : list nat) (a : ndarray A) : result (ndarray A) :=
  if size s =? length (data a) then Ok (mk_ndarray s (data a))
  else Raise ValueError.

(** The list [g i j k] for [i < n0], [j < n1], [k < n2], in C order. *)
Definition tabulate3 {B} (n0 n1 n2 : nat) (g : nat → nat → nat → B) : list B :=
  i ← seq 0 n0; j ← seq 0 n1; g i j <$> seq 0 n2.

(** The elements of [l] at the given offsets, in that order. *)
Definition gather {A} (offsets : list nat) (l : list A) : list A :=
  n ← offsets; option_list (l !! n).

(** [a[i, j, k]] for a three-dimensional array (non-negative indices). *)
Definition item3 {A} (a : ndarray A) (i j k : nat) : option A :=
  match shape a with
  | [d0; d1; d2] =>
      if (i <? d0) && (j <? d1) && (k <? d2)
      then data a !! ((i * d1 + j) * d2 + k)
      else None
  | _ => None
  end.

Definition is_axes3 (p0 p1 p2 : nat) : bool :=
  bool_decide (Permutation [p0; p1; p2] [0; 1; 2]).

(** [a.transpose(p0, p1, p2)]: axis [i] of the result is axis [p_i] of [a];
    the view keeps the buffer and permutes shape and strides.  numpy raises
    ValueError when the axes do not match the array. *)
Definition transpose {A} (p0 p1 p2 : nat) (a : ndarray A) : result (ndarray A) :=
  match shape a with
  | [d0; d1; d2] =>
      if is_axes3 p0 p1 p2 then
        let dim p := nth p [d0; d1; d2] 0 in
        let stride p := nth p [d1 * d2; d2; 1] 0 in
        Ok (mk_ndarray [dim p0; dim p1; dim p2]
              (gather (tabulate3 (dim p0) (dim p1) (dim p2)
                         (λ i j k, i * stride p0 + j * stride p1 + k * stride p2))
                      (data a)))
      else Raise ValueError
  | _ => Raise ValueError
  end.

(** ** Cell 3: [reshape_image] *)

Definition record : Type := ndarray Z * Z * string.

Definition reshape_image (rec : record) : result record :=
  let '(image, label, filename) := rec in
  r ← reshape [3; 32; 32] image;
  t ← transpose 1 2 0 r;
  mret (t, label, filename).

(** Cell 4 flattens a reshaped image again: [i[0].reshape((32*32*3))]. *)
Definition flatten_image (image : ndarray Z) : result (ndarray Z) :=
  reshape [32 * 32 * 3] image.

(** ** The rest of numpy used by cell 7 *)

(** [a.astype(t)], the conversion of one element being [f]. *)
Definition astype {A B} (f : A → B) (a : ndarray A) : ndarray B :=
  mk_ndarray (shape a) (f <$> data a).

(** The blocks of [b] consecutive elements of [l] at the given block
    offsets. *)
Definition gather_blocks {A} (b : nat) (offsets : list nat) (l : list A) : list A :=
  n ← offsets; take b (drop (n * b) l).

(** [a[:, :, ::-1]]: the third axis reversed.  numpy raises IndexError on an
    array of fewer than three dimensions; further axes are carried along. *)
Definition reverse_axis2 {A} (a : ndarray A) : result (ndarray A) :=
  match shape a with
  | d0 :: d1 :: d2 :: rest =>
      Ok (mk_ndarray (shape a)
            (gather_blocks (size rest)
               (tabulate3 d0 d1 d2 (λ i j k, (i * d1 + j) * d2 + (d2 - 1 - k)))
               (data a)))
  | _ => Raise IndexError
  end.

(** The multi-index of the [n]-th element, in C order, of an array of shape
    [s], and the position of a multi-index. *)
Fixpoint unravel (s : list nat) (n : nat) : list nat :=
  match s with
  | [] => []
  | _ :: s' => n / size s' :: unravel s' (n mod size s')
  end.

Fixpoint ravel (s idx : list nat) : nat :=
  match s, idx with
  | _ :: s', i :: idx' => i * size s' + ravel s' idx'
  | _, _ => 0
  end.

(** numpy broadcasting of an operand of shape [t] to the shape [s] of the
    array updated in place: the shapes are aligned at their last axis, and
    an axis of [t] has the length of the axis of [s] or length 1. *)
Definition broadcastable (t s : list nat) : bool :=
  (length t <=? length s) &&
  forallb (λ '(dt, ds), (dt =? ds) || (dt =? 1))
          (zip t (drop (length s - length t) s)).

Definition broadcast_offset (t s : list nat) (n : nat) : nat :=
  ravel t (zip_with (λ dt i, if dt =? 1 then 0 else i) t
             (drop (length s - length t) (unravel s n))).

(** [a -= b], the subtraction of one element being [sub]; numpy raises
    ValueError when [b] cannot be broadcast to the shape of [a]. *)
Definition isub {A B} (sub : A → B → A) (a : ndarray A) (b : ndarray B)
    : result (ndarray A) :=
  if broadcastable (shape b) (shape a) then
    Ok (mk_ndarray (shape a)
          (zip_with sub (data a)
             (gather (broadcast_offset (shape b) (shape a)
                        <$> seq 0 (length (data a)))
                     (data b))))
  else Raise ValueError.

(** [np.squeeze(a)]: the axes of length 1 removed. *)
Definition squeeze {A} (a : ndarray A) : ndarray A :=
  mk_ndarray (filter (λ d, d ≠ 1) (shape a)) (data a).

(** Scores are the exact values of the floats the model returns (no NaN). *)
Definition Qlt_bool (x y : Q) : bool := negb (Qle_bool y x).

Fixpoint argmax_from (best : nat) (best_score : Q) (i : nat) (l : list Q) : nat :=
  match l with
  | [] => best
  | x :: l' =>
      if Qlt_bool best_score x then argmax_from i x (S i) l'
      else argmax_from best best_score (S i) l'
  end.

(** [np.argmax(a)]: the position, in the flattened array, of the first
    occurrence of the maximum; ValueError on an empty array. *)
Definition argmax (a : ndarray Q) : result nat :=
  match data a with
  | [] => Raise ValueError
  | x :: l => Ok (argmax_from 0 x 1 l)
  end.

(** ** Generators and iterators

    A generator run to exhaustion gives the events it performed, in order,
    and how it ended.  An iterator is what its successive [next] calls
    give. *)

Inductive event : Type :=
  | LoadModel (path : string)
  | Yield (true_label predicted_label : Z).

Definition gen (A : Type) : Type := (list event * result A)%type.

#[global] Instance gen_ret : MRet gen := λ A a, ([], Ok a).
#[global] Instance gen_bind : MBind gen := λ A B f m,
  match m with
  | (tr, Ok a) => let '(tr', r) := f a in (tr ++ tr', r)
  | (tr, Raise e) => (tr, Raise e)
  end.

Definition lift {A} (r : result A) : gen A := ([], r).
Definition yield (true_label predicted_label : Z) : gen unit :=
  ([Yield true_label predicted_label], Ok tt).

Definition iterator (A : Type) : Type := list (result A).

Definition iter {A} (l : list A) : iterator A := Ok <$> l.

(** [rdd.map(f)] inside one partition: [f] is applied when the element is
    pulled. *)
Definition rdd_map {A B} (f : A → result B) (it : iterator A) : iterator B :=
  (λ r : result A, r ≫= f) <$> it.

(** [for x in it: body] inside a generator. *)
Fixpoint for_each {A} (it : iterator A) (body : A → gen unit) : gen unit :=
  match it with
  | [] => mret tt
  | r :: it' => x ← lift r; _ ← body x; for_each it' body
  end.

Definition yields (tr : list event) : list (Z * Z) :=
  tr ≫= λ ev, match ev with Yield t p => [(t, p)] | LoadModel _ => [] end.

Definition loads (tr : list event) : list string :=
  tr ≫= λ ev, match ev with LoadModel path => [path] | Yield _ _ => [] end.

(** ** Cells 6 and 7: mean image, preprocessing and the worker

    The float types and the CNTK runtime are external: [F] stands for
    float32 and [M] for float64, [float32_of] for the conversion of a pixel
    in [astype(np.float32)], [fsub] for one float32 [-=] float64, and
    [load_model], [model_eval] and [SparkFiles_get] for the library calls of
    the same names. *)

Section Scoring.

Variables (F M Model : Type).
Variable float32_of : Z → F.
Variable fsub : F → M → F.
Variable SparkFiles_get : string → string.
Variable load_model : string → result Model.
Variable model_eval : Model → ndarray F → result (ndarray Q).

(** Cell 6, after the XML file has been read into the list of its numbers:
    [np.array(mean_image).reshape((32, 32, 3)).transpose((2, 0, 1))]. *)
Definition setup_mean_image (values : list M) : result (ndarray M) :=
  r ← reshape [32; 32; 3] (array values);
  transpose 2 0 1 r.

(** The value of the broadcast variable [mean_image_bc]. *)
Variable mean_image_bc_value : ndarray M.

Definition get_preprocessed_image (my_image : ndarray Z) (mean_image : ndarray M)
    : result (ndarray F) :=
  let my_image := astype float32_of my_image in
  bgr_image ← reverse_axis2 my_image;
  image_data ← transpose 2 0 1 bgr_image;
  image_data ← isub fsub image_data mean_image;
  mret image_data.

Definition run_worker (records : iterator record) : gen unit :=
  loaded_model ← ([LoadModel (SparkFiles_get "./model.dnn"%string)],
                  load_model (SparkFiles_get "./model.dnn"%string));
  let mean_image := mean_image_bc_value in
  for_each records (λ record,
    preprocessed_image ← lift (get_preprocessed_image record.1.1 mean_image);
    dnn_output ← lift (model_eval loaded_model preprocessed_image);
    predicted ← lift (argmax (squeeze dnn_output));
    yield record.1.2 (Z.of_nat predicted)).

(** Cell 8 on one partition:
    [image_rdd.map(reshape_image).mapPartitions(run_worker)]. *)
Definition labelled_images (partition : list record) : gen unit :=
  run_worker (rdd_map reshape_image (iter partition)).

(** What one turn of the loop of [run_worker] computes from its record, for
    the statements below. *)
Definition score_record (loaded_model : Model) (rec : record) : result (Z * Z) :=
  preprocessed_image ← get_preprocessed_image rec.1.1 mean_image_bc_value;
  dnn_output ← model_eval loaded_model preprocessed_image;
  predicted ← argmax (squeeze dnn_output);
  mret (rec.1.2, Z.of_nat predicted).

End Scoring.

Arguments setup_mean_image {M} values.
Arguments get_preprocessed_image {F M} float32_of fsub my_image mean_image.
Arguments run_worker {F M Model} float32_of fsub SparkFiles_get load_model
  model_eval mean_image_bc_value records.
Arguments labelled_images {F M Model} float32_of fsub SparkFiles_get load_model
  model_eval mean_image_bc_value partition.
Arguments score_record {F M Model} float32_of fsub model_eval
  mean_image_bc_value loaded_model rec.

(** Cells 6 and 8 in the order of the notebook, on one partition: the value
    of [mean_image_bc] read by the worker is the mean image cell 6 computed,
    and an exception in cell 6 ends the run there. *)
Definition setup_and_score {F M Model : Type} (float32_of : Z → F)
    (fsub : F → M → F) (SparkFiles_get : string → string)
    (load_model : string → result Model)
    (model_eval : Model → ndarray F → result (ndarray Q))
    (values : list M) (partition : list record) : gen unit :=
  mean_image ← lift (setup_mean_image values);
  labelled_images float32_of fsub SparkFiles_get load_model model_eval
    mean_image partition.

(** The first position of the largest element of [l]. *)
Definition first_max (l : list Q) (p : nat) : Prop :=
  ∃ v, l !! p = Some v ∧
       (∀ j w, l !! j = Some w → (w <= v)%Q) ∧
       (∀ j w, j < p → l !! j = Some w → (w < v)%Q).

(** ** Cell 9: accuracy *)

Definition prediction : Type := Z * Z.

(** [sum(df['true_label'] == df['predicted_label'])] *)
Definition num_correct (results : list prediction) : nat :=
  length (filter (λ r : prediction, r.1 = r.2) results).

Definition num_total (results : list prediction) : nat := length results.

(** Python's [a / b] on integers, as the exact quotient the float result
    rounds. *)
Definition truediv (a b : Z) : result Q :=
  if (b =? 0)%Z then Raise ZeroDivisionError
  else Ok (Qmake (a * Z.sgn b) (Z.to_pos (Z.abs b))).

(** The percentage the cell prints: [100 * num_correct / num_total]. *)
Definition accuracy_percent (results : list prediction) : result Q :=
  truediv (100 * Z.of_nat (num_correct results)) (Z.of_nat (num_total results)).

(** ** Cell 12: confusion matrix *)

Definition label_to_name_dict : gmap Z string :=
  list_to_map
    [(0%Z, "airplane"%string); (1%Z, "automobile"%string); (2%Z, "bird"%string); (3%Z, "cat"%string);
     (4%Z, "deer"%string); (5%Z, "dog"%string); (6%Z, "frog"%string); (7%Z, "horse"%string);
     (8%Z, "ship"%string); (9%Z, "truck"%string)].

(** [d[k]] on a Python dict. *)
Definition getitem {V} (d : gmap Z V) (k : Z) : result V :=
  match d !! k with
  | Some v => Ok v
  | None => Raise KeyError
  end.

(** [np.sort(df['true_label'].unique())] *)
Definition sorted_unique (l : list Z) : list Z :=
  merge_sort Z.le (remove_dups l).

Definition count_pair (results : list prediction) (t p : Z) : nat :=
  length (filter (λ r : prediction, r = (t, p)) results).

(** sklearn's [confusion_matrix(y_true, y_pred, labels=labels)]: row [i],
    column [j] counts the samples with true label [labels[i]] and predicted
    label [labels[j]]; it raises ValueError when no label of [labels] occurs
    in [y_true]. *)
Definition confusion_matrix (results : list prediction) (labels : list Z)
    : result (list (list nat)) :=
  if forallb (λ l, bool_decide (l ∉ results.*1)) labels then Raise ValueError
  else Ok ((λ t, count_pair results t <$> labels) <$> labels).

Fixpoint mapM {A B} (f : A → result B) (l : list A) : result (list B) :=
  match l with
  | [] => mret []
  | x :: l' => y ← f x; ys ← mapM f l'; mret (y :: ys)
  end.

Definition confusion_cell (results : list prediction)
    : result (list Z * list string * list (list nat)) :=
  let labels := sorted_unique results.*1 in
  named_labels ← mapM (getitem label_to_name_dict) labels;
  cm ← confusion_matrix results labels;
  mret (labels, named_labels, cm).

(** The count the matrix holds for a pair of labels, if it has one. *)
Definition cm_entry (labels : list Z) (cm : list (list nat)) (t p : Z) : option nat :=
  i ← list_find (λ l, l = t) labels;
  j ← list_find (λ l, l = p) labels;
  row ← cm !! i.1;
  row !! j.1.

(** ** Stand-ins for the external parts, to run the cells *)

(** A model that scores class 0 highest whatever the image. *)
Definition stub_eval (_ : unit) (_ : ndarray Z) : result (ndarray Q) :=
  Ok (mk_ndarray [1; 10] (inject_Z <$> [1; 0; 0; 0; 0; 0; 0; 0; 0; 0]%Z)).

Definition stub_load (_ : string) : result unit := Ok tt.

Definition failing_load (_ : string) : result unit :=
  Raise (ExternalError "model file cannot be read"%string).

Definition ramp (n : nat) : list Z := Z.of_nat <$> seq 0 n.

Definition zero_mean : ndarray Z := mk_ndarray [3; 32; 32] (replicate 3072 0%Z).

Definition stub_worker : iterator record → gen unit :=
  run_worker id Z.sub id stub_load stub_eval zero_mean.

(** Two records as the dataset gives them, the second with a label that is
    no CIFAR-10 class, and their reshaped images. *)
Definition raw_frog : record := (array (ramp 3072), 6%Z, "frog_s_000001.png"%string).
Definition raw_odd : record := (array (ramp 3072), 12%Z, "odd_label.png"%string).
Definition frog : record :=
  (mk_ndarray [32; 32; 3] (ramp 3072), 6%Z, "frog_s_000001.png"%string).
Definition odd : record :=
  (mk_ndarray [32; 32; 3] (ramp 3072), 12%Z, "odd_label.png"%string).

(** * Properties *)

(** ** Lists built by position *)

Section Tabulate.
Context {B : Type}.

Lemma bind_seq_length (f : nat → list B) (n m s : nat) :
  (∀ x, length (f x) = n) → length (seq s m ≫= f) = m * n.
Proof.
  intros Hf. revert s. induction m as [|m IH]; intros s; simpl; [done|].
  rewrite length_app, Hf, IH. lia.
Qed.

Lemma bind_seq_lookup (f : nat → list B) (n m s i j : nat) :
  (∀ x, length (f x) = n) → i < m → j < n →
  (seq s m ≫= f) !! (i * n + j) = f (s + i) !! j.
Proof.
  intros Hf. revert s i. induction m as [|m IH]; intros s i Hi Hj; [lia|].
  simpl. destruct i as [|i].
  - rewrite lookup_app_l by (rewrite Hf; lia). by rewrite Nat.add_0_r.
  - rewrite lookup_app_r by (rewrite Hf; lia).
    rewrite Hf. replace (S i * n + j - n) with (i * n + j) by lia.
    rewrite IH by lia. f_equal. f_equal. lia.
Qed.

Lemma length_tabulate3 (n0 n1 n2 : nat) (g : nat → nat → nat → B) :
  length (tabulate3 n0 n1 n2 g) = n0 * n1 * n2.
Proof.
  unfold tabulate3.
  rewrite (bind_seq_length _ (n1 * n2)); [lia|].
  intros i. apply bind_seq_length. intros j. by rewrite length_fmap, length_seq.
Qed.

Lemma tabulate3_lookup (n0 n1 n2 : nat) (g : nat → nat → nat → B) (i j k : nat) :
  i < n0 → j < n1 → k < n2 →
  tabulate3 n0 n1 n2 g !! ((i * n1 + j) * n2 + k) = Some (g i j k).
Proof.
  intros Hi Hj Hk. unfold tabulate3.
  replace ((i * n1 + j) * n2 + k) with (i * (n1 * n2) + (j * n2 + k)) by lia.
  rewrite (bind_seq_lookup _ (n1 * n2)); [| |done|nia].
  - rewrite (bind_seq_lookup _ n2); [|by intros; rewrite length_fmap, length_seq|done..].
    rewrite list_lookup_fmap, lookup_seq_lt by done. done.
  - intros x. apply bind_seq_length. intros y. by rewrite length_fmap, length_seq.
Qed.

Lemma index3_decompose (n0 n1 n2 n : nat) :
  n < n0 * n1 * n2 →
  ∃ i j k, i < n0 ∧ j < n1 ∧ k < n2 ∧ n = (i * n1 + j) * n2 + k.
Proof.
  intros Hn.
  assert (n1 ≠ 0 ∧ n2 ≠ 0) as [H1 H2] by (split; intros ->; lia).
  pose proof (Nat.div_mod_eq n n2) as E2.
  pose proof (Nat.div_mod_eq (n / n2) n1) as E1.
  pose proof (Nat.mod_upper_bound n n2 H2).
  pose proof (Nat.mod_upper_bound (n / n2) n1 H1).
  exists (n / n2 / n1), (n / n2 mod n1), (n mod n2).
  split_and!; [|done|done|nia].
  destruct (decide (n / n2 / n1 < n0)) as [|Hge]; [done|].
  assert (n0 * (n1 * n2) ≤ n / n2 / n1 * (n1 * n2)) by (apply Nat.mul_le_mono_r; lia).
  nia.
Qed.

Lemma Forall_tabulate3 (P : B → Prop) (n0 n1 n2 : nat) (g : nat → nat → nat → B) :
  (∀ i j k, i < n0 → j < n1 → k < n2 → P (g i j k)) →
  Forall P (tabulate3 n0 n1 n2 g).
Proof.
  intros Hg. apply Forall_lookup. intros n x Hx.
  pose proof (lookup_lt_Some _ _ _ Hx) as Hn. rewrite length_tabulate3 in Hn.
  destruct (index3_decompose _ _ _ _ Hn) as (i & j & k & Hi & Hj & Hk & ->).
  rewrite tabulate3_lookup in Hx by done. injection Hx as <-. by apply Hg.
Qed.

End Tabulate.

Section Gather.
Context {A : Type}.

Lemma gather_cons (o : nat) (offsets : list nat) (l : list A) :
  gather (o :: offsets) l = option_list (l !! o) ++ gather offsets l.
Proof. done. Qed.

Lemma length_gather (offsets : list nat) (l : list A) :
  Forall (λ o, o < length l) offsets →
  length (gather offsets l) = length offsets.
Proof.
  induction 1 as [|o offsets Ho _ IH]; [done|].
  rewrite gather_cons, length_app, IH.
  destruct (lookup_lt_is_Some_2 l o Ho) as [x ->]. done.
Qed.

Lemma gather_lookup (offsets : list nat) (l : list A) (n : nat) :
  Forall (λ o, o < length l) offsets →
  gather offsets l !! n = offsets !! n ≫= (l !!.).
Proof.
  intros H. revert n. induction H as [|o offsets Ho _ IH]; intros n; [done|].
  rewrite gather_cons. destruct (lookup_lt_is_Some_2 l o Ho) as [x Hx].
  rewrite Hx. destruct n as [|n]; simpl; [by rewrite Hx|apply IH].
Qed.

Lemma gather_seq (l : list A) : gather (seq 0 (length l)) l = l.
Proof.
  apply list_eq. intros n.
  rewrite gather_lookup by (apply Forall_seq; lia).
  destruct (decide (n < length l)).
  - rewrite lookup_seq_lt by done. done.
  - rewrite lookup_seq_ge by lia. simpl. symmetry. apply lookup_ge_None. lia.
Qed.

Lemma gather_blocks_1 (offsets : list nat) (l : list A) :
  gather_blocks 1 offsets l = gather offsets l.
Proof.
  induction offsets as [|o offsets IH]; [done|].
  unfold gather_blocks, gather in *. rewrite !bind_cons, IH. f_equal.
  rewrite Nat.mul_1_r. clear. revert o. induction l as [|x l IH]; intros [|o]; simpl; done.
Qed.

End Gather.

(** ** Three-dimensional arrays *)

Lemma index3_bound (d0 d1 d2 i j k : nat) :
  i < d0 → j < d1 → k < d2 → (i * d1 + j) * d2 + k < d0 * d1 * d2.
Proof.
  intros Hi Hj Hk.
  assert (S i * d1 ≤ d0 * d1) by (apply Nat.mul_le_mono_r; lia).
  assert (S (i * d1 + j) * d2 ≤ d0 * d1 * d2) by (apply Nat.mul_le_mono_r; lia).
  lia.
Qed.

Section Arrays.
Context {A : Type}.
Implicit Types a b : ndarray A.

Lemma gather_tabulate3_length (l : list A) (n0 n1 n2 : nat) (off : nat → nat → nat → nat) :
  (∀ i j k, i < n0 → j < n1 → k < n2 → off i j k < length l) →
  length (gather (tabulate3 n0 n1 n2 off) l) = n0 * n1 * n2.
Proof.
  intros Hoff. rewrite length_gather, length_tabulate3; [done|].
  by apply Forall_tabulate3.
Qed.

Lemma gather_tabulate3_lookup (l : list A) (n0 n1 n2 : nat)
    (off : nat → nat → nat → nat) (i j k : nat) :
  (∀ i j k, i < n0 → j < n1 → k < n2 → off i j k < length l) →
  i < n0 → j < n1 → k < n2 →
  gather (tabulate3 n0 n1 n2 off) l !! ((i * n1 + j) * n2 + k) = l !! off i j k.
Proof.
  intros Hoff Hi Hj Hk.
  rewrite gather_lookup by by apply Forall_tabulate3.
  by rewrite tabulate3_lookup.
Qed.

Lemma item3_in_range a (d0 d1 d2 i j k : nat) :
  shape a = [d0; d1; d2] → i < d0 → j < d1 → k < d2 →
  item3 a i j k = data a !! ((i * d1 + j) * d2 + k).
Proof.
  intros Hs Hi Hj Hk. unfold item3. rewrite Hs.
  apply Nat.ltb_lt in Hi, Hj, Hk. by rewrite Hi, Hj, Hk.
Qed.

Lemma item3_is_Some a (d0 d1 d2 i j k : nat) :
  shape a = [d0; d1; d2] → well_formed a → i < d0 → j < d1 → k < d2 →
  is_Some (item3 a i j k).
Proof.
  intros Hs Hwf Hi Hj Hk. rewrite (item3_in_range a d0 d1 d2) by done.
  apply lookup_lt_is_Some_2. rewrite Hwf, Hs. simpl.
  pose proof (index3_bound d0 d1 d2 i j k). lia.
Qed.

(** Two arrays of one three-dimensional shape with the same items are the
    same array. *)
Lemma ndarray3_ext a b (d0 d1 d2 : nat) :
  shape a = [d0; d1; d2] → shape b = [d0; d1; d2] →
  well_formed a → well_formed b →
  (∀ i j k, i < d0 → j < d1 → k < d2 → item3 a i j k = item3 b i j k) →
  a = b.
Proof.
  destruct a as [sa la], b as [sb lb]. unfold well_formed. simpl.
  intros -> -> Ha Hb Hitem. f_equal. simpl in Ha, Hb.
  apply list_eq. intros n. destruct (decide (n < d0 * d1 * d2)) as [Hn|Hn].
  - destruct (index3_decompose _ _ _ _ Hn) as (i & j & k & Hi & Hj & Hk & ->).
    specialize (Hitem i j k Hi Hj Hk).
    by rewrite !(item3_in_range _ d0 d1 d2) in Hitem.
  - rewrite !lookup_ge_None_2; [done|lia..].
Qed.

Lemma transpose_120 a (d0 d1 d2 : nat) :
  shape a = [d0; d1; d2] → well_formed a →
  ∃ t, transpose 1 2 0 a = Ok t ∧ shape t = [d1; d2; d0] ∧ well_formed t ∧
       ∀ i j k, i < d1 → j < d2 → k < d0 → item3 t i j k = item3 a k i j.
Proof.
  intros Hs Hwf. unfold well_formed in Hwf. rewrite Hs in Hwf. simpl in Hwf.
  unfold transpose. rewrite Hs. change (is_axes3 1 2 0) with true. simpl.
  eexists. split; [done|]. split; [done|].
  assert (∀ i j k, i < d1 → j < d2 → k < d0 →
            i * d2 + j * 1 + k * (d1 * d2) < length (data a)) as Hoff
    by (intros i j k ???; rewrite Hwf; pose proof (index3_bound d0 d1 d2 k i j); lia).
  split.
  - unfold well_formed. simpl. rewrite gather_tabulate3_length by done. lia.
  - intros i j k Hi Hj Hk.
    rewrite (item3_in_range _ d1 d2 d0), (item3_in_range _ d0 d1 d2) by done.
    simpl. rewrite gather_tabulate3_lookup by done. f_equal. lia.
Qed.

Lemma transpose_201 a (d0 d1 d2 : nat) :
  shape a = [d0; d1; d2] → well_formed a →
  ∃ t, transpose 2 0 1 a = Ok t ∧ shape t = [d2; d0; d1] ∧ well_formed t ∧
       ∀ i j k, i < d2 → j < d0 → k < d1 → item3 t i j k = item3 a j k i.
Proof.
  intros Hs Hwf. unfold well_formed in Hwf. rewrite Hs in Hwf. simpl in Hwf.
  unfold transpose. rewrite Hs. change (is_axes3 2 0 1) with true. simpl.
  eexists. split; [done|]. split; [done|].
  assert (∀ i j k, i < d2 → j < d0 → k < d1 →
            i * 1 + j * (d1 * d2) + k * d2 < length (data a)) as Hoff
    by (intros i j k ???; rewrite Hwf; pose proof (index3_bound d0 d1 d2 j k i); lia).
  split.
  - unfold well_formed. simpl. rewrite gather_tabulate3_length by done. lia.
  - intros i j k Hi Hj Hk.
    rewrite (item3_in_range _ d2 d0 d1), (item3_in_range _ d0 d1 d2) by done.
    simpl. rewrite gather_tabulate3_lookup by done. f_equal. lia.
Qed.

(** Moving the first axis to the end and back gives the array again. *)
Lemma transpose_120_201 a t (d0 d1 d2 : nat) :
  shape a = [d0; d1; d2] → well_formed a →
  transpose 1 2 0 a = Ok t → transpose 2 0 1 t = Ok a.
Proof.
  intros Hs Hwf Ht.
  destruct (transpose_120 a d0 d1 d2 Hs Hwf) as (t' & Ht' & Hst & Hwft & Hit).
  rewrite Ht in Ht'. injection Ht' as <-.
  destruct (transpose_201 t d1 d2 d0 Hst Hwft) as (u & Hu & Hsu & Hwfu & Hiu).
  rewrite Hu. f_equal. apply (ndarray3_ext u a d0 d1 d2); try done.
  intros i j k Hi Hj Hk. rewrite Hiu, Hit by done. done.
Qed.

Lemma reverse_axis2_3d a (d0 d1 d2 : nat) :
  shape a = [d0; d1; d2] → well_formed a →
  ∃ b, reverse_axis2 a = Ok b ∧ shape b = [d0; d1; d2] ∧ well_formed b ∧
       ∀ i j k, i < d0 → j < d1 → k < d2 →
         item3 b i j k = item3 a i j (d2 - 1 - k).
Proof.
  intros Hs Hwf. pose proof Hwf as Hlen.
  unfold well_formed in Hlen. rewrite Hs in Hlen. simpl in Hlen.
  unfold reverse_axis2. rewrite Hs. simpl size. rewrite gather_blocks_1.
  eexists. split; [done|]. split; [done|].
  assert (∀ i j k, i < d0 → j < d1 → k < d2 →
            (i * d1 + j) * d2 + (d2 - 1 - k) < length (data a)) as Hoff
    by (intros i j k ???; rewrite Hlen;
        pose proof (index3_bound d0 d1 d2 i j (d2 - 1 - k)); lia).
  split.
  - unfold well_formed. simpl. rewrite gather_tabulate3_length by done. lia.
  - intros i j k Hi Hj Hk.
    rewrite (item3_in_range _ d0 d1 d2), (item3_in_range a d0 d1 d2) by (done || lia).
    simpl. by rewrite gather_tabulate3_lookup.
Qed.

End Arrays.

Lemma item3_astype {A B} (f : A → B) (a : ndarray A) (i j k : nat) :
  item3 (astype f a) i j k = f <$> item3 a i j k.
Proof.
  unfold item3, astype. simpl. destruct (shape a) as [|d0 [|d1 [|d2 [|]]]]; try done.
  destruct (_ && _); [|done]. apply list_lookup_fmap.
Qed.

(** ** Cell 3: the record reshaper *)

Lemma bind_Ok {A B} (a : A) (f : A → result B) : Ok a ≫= f = f a.
Proof. done. Qed.

Lemma bind_Raise {A B} (e : exn) (f : A → result B) : Raise e ≫= f = Raise e.
Proof. done. Qed.

Lemma reshape_ok {A} (s : list nat) (a : ndarray A) :
  length (data a) = size s → reshape s a = Ok (mk_ndarray s (data a)).
Proof. intros H. unfold reshape. rewrite H, Nat.eqb_refl. done. Qed.

Lemma reshape_raises {A} (s : list nat) (a : ndarray A) :
  length (data a) ≠ size s → reshape s a = Raise ValueError.
Proof.
  intros H. unfold reshape.
  destruct (Nat.eqb_spec (size s) (length (data a))); [congruence|done].
Qed.

Lemma reshape_image_ok (image : ndarray Z) (label : Z) (filename : string) :
  length (data image) = 3072 →
  ∃ t, reshape_image (image, label, filename) = Ok (t, label, filename) ∧
       shape t = [32; 32; 3] ∧ well_formed t ∧
       transpose 2 0 1 t = Ok (mk_ndarray [3; 32; 32] (data image)) ∧
       ∀ h w c, h < 32 → w < 32 → c < 3 →
         item3 t h w c = data image !! (c * 1024 + h * 32 + w).
Proof.
  intros Hlen. unfold reshape_image.
  rewrite (reshape_ok [3; 32; 32]) by done.
  set (r := mk_ndarray [3; 32; 32] (data image)).
  destruct (transpose_120 r 3 32 32 eq_refl Hlen) as (t & Ht & Hs & Hwf & Hitem).
  exists t. rewrite bind_Ok, Ht, bind_Ok. split_and!; try done.
  - by apply (transpose_120_201 r t 3 32 32).
  - intros h w c Hh Hw Hc. rewrite Hitem by done.
    rewrite (item3_in_range r 3 32 32) by done. simpl. f_equal. lia.
Qed.

(** C7, as amended: for every buffer of 3072 pixels [reshape_image] returns an
    array of shape (32, 32, 3) whose item (h, w, c) is element
    [c * 1024 + h * 32 + w] of the buffer (channel-major reading), with the
    label and the file name; the buffer is recovered from that array by
    [transpose(2, 0, 1)] followed by [reshape(3072)], so that two buffers
    with the same reshaped image are equal. *)
Theorem reshape_image_invertible (buffer : list Z) (label : Z) (filename : string) :
  length buffer = 3072 →
  ∃ t, reshape_image (array buffer, label, filename) = Ok (t, label, filename) ∧
       shape t = [32; 32; 3] ∧
       (∀ h w c, h < 32 → w < 32 → c < 3 →
          item3 t h w c = buffer !! (c * 1024 + h * 32 + w)) ∧
       (transpose 2 0 1 t ≫= reshape [3072]) = Ok (array buffer) ∧
       (∀ buffer' label' filename',
          length buffer' = 3072 →
          reshape_image (array buffer', label', filename')
            = Ok (t, label', filename') →
          buffer' = buffer).
Proof.
  intros Hlen.
  destruct (reshape_image_ok (array buffer) label filename Hlen)
    as (t & Ht & Hs & Hwf & Hback & Hitem).
  exists t. split_and!; try done.
  - rewrite Hback, bind_Ok, reshape_ok by done. unfold array. by rewrite Hlen.
  - intros buffer' label' filename' Hlen' Ht'.
    destruct (reshape_image_ok (array buffer') label' filename' Hlen')
      as (t' & Ht'' & _ & _ & Hback' & _).
    rewrite Ht' in Ht''. injection Ht'' as <-.
    rewrite Hback in Hback'. by injection Hback'.
Qed.

Lemma reshape_image_invertible_witness :
  ∃ t, reshape_image (array (ramp 3072), 7%Z, "leptodactylus_s_000004.png"%string)
         = Ok (t, 7%Z, "leptodactylus_s_000004.png"%string) ∧
       item3 t 2 5 1 = Some 1093%Z.
Proof.
  destruct (reshape_image_invertible (ramp 3072) 7%Z
              "leptodactylus_s_000004.png"%string eq_refl)
    as (t & Ht & _ & Hitem & _).
  exists t. split; [exact Ht|]. rewrite Hitem by lia. reflexivity.
Defined.

(** C7, as stated, fails: flattening the reshaped image the way cell 4 does
    ([reshape((32*32*3))]) interleaves the channels and does not give the
    buffer back. *)
Lemma reshape_image_flatten_differs :
  (r ← reshape_image (array (ramp 3072), 7%Z, "leptodactylus_s_000004.png"%string);
   flatten_image r.1.1) ≠ Ok (array (ramp 3072)).
Proof.
  intros H.
  apply (f_equal (λ r : result (ndarray Z),
                    match r with Ok a => data a !! 1 | Raise _ => None end)) in H.
  vm_compute in H. discriminate H.
Qed.

(** C8: a buffer whose length is not 3072 makes [reshape_image] raise
    (numpy's ValueError, which nothing in the notebook catches) instead of
    returning an array. *)
Theorem reshape_image_malformed (image : ndarray Z) (label : Z) (filename : string) :
  length (data image) ≠ 3072 →
  reshape_image (image, label, filename) = Raise ValueError.
Proof.
  intros Hlen. unfold reshape_image. by rewrite (reshape_raises [3; 32; 32]), bind_Raise.
Qed.

Lemma reshape_image_malformed_witness :
  length (data (array (ramp 3071))) ≠ 3072 ∧
  reshape_image (array (ramp 3071), 3%Z, "cat.png"%string) = Raise ValueError.
Proof.
  assert (length (data (array (ramp 3071))) ≠ 3072) as H by (vm_compute; lia).
  split; [exact H|]. exact (reshape_image_malformed _ _ _ H).
Defined.

(** ** Broadcasting in the in-place subtraction *)

Lemma ravel_unravel (s : list nat) (n : nat) :
  n < size s →
  ravel s (zip_with (λ dt i, if dt =? 1 then 0 else i) s (unravel s n)) = n.
Proof.
  revert n. induction s as [|d s IH]; intros n Hn; simpl in *; [lia|].
  assert (size s ≠ 0) as Hs by (intros E; rewrite E in Hn; lia).
  rewrite IH by by apply Nat.mod_upper_bound.
  pose proof (Nat.div_mod_eq n (size s)) as E.
  destruct (Nat.eqb_spec d 1) as [->|_]; [|lia].
  rewrite Nat.div_small in E by lia. lia.
Qed.

Lemma broadcast_offset_same (s : list nat) (n : nat) :
  n < size s → broadcast_offset s s n = n.
Proof.
  intros Hn. unfold broadcast_offset. rewrite Nat.sub_diag. simpl.
  by apply ravel_unravel.
Qed.

Lemma broadcastable_refl (s : list nat) : broadcastable s s = true.
Proof.
  unfold broadcastable. rewrite Nat.leb_refl, Nat.sub_diag, drop_0.
  rewrite andb_true_l.
  induction s as [|d s IH]; [done|]. cbn [zip zip_with forallb].
  by rewrite Nat.eqb_refl, IH.
Qed.

Lemma isub_same_shape {A B} (sub : A → B → A) (a : ndarray A) (b : ndarray B) :
  shape b = shape a → well_formed a → well_formed b →
  isub sub a b = Ok (mk_ndarray (shape a) (zip_with sub (data a) (data b))).
Proof.
  intros Hs Ha Hb. unfold isub. rewrite Hs, broadcastable_refl.
  do 3 f_equal. unfold well_formed in *. rewrite Hs in Hb.
  rewrite <- (gather_seq (data b)) at 2. rewrite Hb, <- Ha. f_equal.
  apply list_eq. intros n. rewrite list_lookup_fmap.
  destruct (decide (n < length (data a))) as [Hn|Hn].
  - rewrite lookup_seq_lt by done. simpl. f_equal.
    apply broadcast_offset_same. lia.
  - by rewrite lookup_seq_ge by lia.
Qed.

(** ** Cell 7: the image preprocessor *)

Section Preprocessor.
Context {F M : Type} (float32_of : Z → F) (fsub : F → M → F).

(** The steps of [get_preprocessed_image] on an image and a mean image of
    matching shapes: the transposed BGR image, then the subtraction element
    by element. *)
Lemma get_preprocessed_image_steps (my_image : ndarray Z) (mean_image : ndarray M)
    (H W C : nat) :
  shape my_image = [H; W; C] → well_formed my_image →
  shape mean_image = [C; H; W] → well_formed mean_image →
  ∃ t, shape t = [C; H; W] ∧ well_formed t ∧
       (∀ c h w, c < C → h < H → w < W →
          item3 t c h w = float32_of <$> item3 my_image h w (C - 1 - c)) ∧
       get_preprocessed_image float32_of fsub my_image mean_image
       = Ok (mk_ndarray [C; H; W] (zip_with fsub (data t) (data mean_image))).
Proof.
  intros Hs Hwf Hms Hmwf. unfold get_preprocessed_image.
  set (fl := astype float32_of my_image).
  assert (shape fl = [H; W; C]) as Hfs by done.
  assert (well_formed fl) as Hfwf
    by (unfold well_formed, fl, astype; simpl; by rewrite length_fmap).
  destruct (reverse_axis2_3d fl H W C Hfs Hfwf) as (bgr & -> & Hbs & Hbwf & Hbi).
  destruct (transpose_201 bgr H W C Hbs Hbwf) as (t & Ht & Hts & Htwf & Hti).
  exists t. split_and!; [done..| |].
  - intros c h w Hc Hh Hw. rewrite Hti, Hbi by done. apply item3_astype.
  - rewrite bind_Ok, Ht, bind_Ok.
    rewrite isub_same_shape by (done || congruence). by rewrite bind_Ok, Hts.
Qed.

(** C6: for an image in (H, W, C) layout and a mean image in (C, H, W)
    layout, [get_preprocessed_image] returns an array in (C, H, W) layout
    whose item (c, h, w) is the float of item (h, w, C-1-c) of the image
    minus item (c, h, w) of the mean image. *)
Theorem get_preprocessed_image_spec (my_image : ndarray Z) (mean_image : ndarray M)
    (H W C : nat) :
  shape my_image = [H; W; C] → well_formed my_image →
  shape mean_image = [C; H; W] → well_formed mean_image →
  ∃ image_data,
    get_preprocessed_image float32_of fsub my_image mean_image = Ok image_data ∧
    shape image_data = [C; H; W] ∧ well_formed image_data ∧
    ∀ c h w, c < C → h < H → w < W →
      ∃ x m, item3 my_image h w (C - 1 - c) = Some x ∧
             item3 mean_image c h w = Some m ∧
             item3 image_data c h w = Some (fsub (float32_of x) m).
Proof.
  intros Hs Hwf Hms Hmwf.
  destruct (get_preprocessed_image_steps my_image mean_image H W C)
    as (t & Hts & Htwf & Hti & ->); [done..|].
  eexists. split; [done|]. split; [done|]. split.
  - unfold well_formed in *. cbn [data shape].
    rewrite length_zip_with, Htwf, Hmwf, Hts, Hms. lia.
  - intros c h w Hc Hh Hw.
    destruct (item3_is_Some my_image H W C h w (C - 1 - c)) as [x Hx]; [done..|lia|].
    destruct (item3_is_Some mean_image C H W c h w) as [m Hm]; [done..|].
    exists x, m. split_and!; [done..|].
    rewrite (item3_in_range _ C H W) by done. simpl.
    rewrite lookup_zip_with.
    rewrite <- (item3_in_range t C H W), <- (item3_in_range mean_image C H W) by done.
    by rewrite Hti, Hx, Hm.
Qed.

End Preprocessor.

Lemma get_preprocessed_image_spec_witness :
  ∃ image_data,
    get_preprocessed_image id Z.sub (mk_ndarray [32; 32; 3] (ramp 3072)) zero_mean
      = Ok image_data ∧
    item3 image_data 0 2 5 = Some 209%Z.
Proof.
  destruct (get_preprocessed_image_spec id Z.sub
              (mk_ndarray [32; 32; 3] (ramp 3072)) zero_mean 32 32 3
              eq_refl eq_refl eq_refl eq_refl)
    as (image_data & Hrun & _ & _ & Hitem).
  exists image_data. split; [exact Hrun|].
  destruct (Hitem 0 2 5) as (x & m & Hx & Hm & ->); [lia..|].
  vm_compute in Hx, Hm. injection Hx as <-. injection Hm as <-. reflexivity.
Defined.

(** ** [np.argmax] *)

Lemma Qlt_bool_true (x y : Q) : Qlt_bool x y = true → (x < y)%Q.
Proof.
  unfold Qlt_bool. intros H. apply Qnot_le_lt. intros Hle.
  apply Qle_bool_iff in Hle. rewrite Hle in H. discriminate.
Qed.

Lemma Qlt_bool_false (x y : Q) : Qlt_bool x y = false → (y <= x)%Q.
Proof.
  unfold Qlt_bool. intros H. apply Qle_bool_iff.
  by destruct (Qle_bool y x).
Qed.

Lemma first_max_snoc_keep (pre : list Q) (best : nat) (v x : Q) :
  pre !! best = Some v → first_max pre best → (x <= v)%Q →
  first_max (pre ++ [x]) best.
Proof.
  intros Hv (v' & Hv' & Hmax & Hfirst) Hx.
  rewrite Hv in Hv'. injection Hv' as <-.
  exists v. split_and!.
  - apply lookup_app_l_Some. done.
  - intros j w [[_ Hw]|[_ <-]]%lookup_snoc_Some; [by eapply Hmax|done].
  - intros j w Hj [[_ Hw]|[-> _]]%lookup_snoc_Some; [by eapply Hfirst|].
    apply lookup_lt_Some in Hv. lia.
Qed.

Lemma first_max_snoc_new (pre : list Q) (best : nat) (v x : Q) :
  pre !! best = Some v → first_max pre best → (v < x)%Q →
  first_max (pre ++ [x]) (length pre).
Proof.
  intros Hv (v' & Hv' & Hmax & _) Hx.
  rewrite Hv in Hv'. injection Hv' as <-.
  exists x. split_and!.
  - by rewrite lookup_app_r, Nat.sub_diag by lia.
  - intros j w [[_ Hw]|[_ <-]]%lookup_snoc_Some; [|apply Qle_refl].
    apply Qlt_le_weak. eapply Qle_lt_trans; [by eapply Hmax|done].
  - intros j w Hj [[_ Hw]|[-> _]]%lookup_snoc_Some; [|lia].
    eapply Qle_lt_trans; [by eapply Hmax|done].
Qed.

Lemma argmax_from_spec (l pre : list Q) (best : nat) (v : Q) :
  pre !! best = Some v → first_max pre best →
  first_max (pre ++ l) (argmax_from best v (length pre) l).
Proof.
  revert pre best v. induction l as [|x l IH]; intros pre best v Hv Hbest; simpl.
  - by rewrite app_nil_r.
  - replace (pre ++ x :: l) with ((pre ++ [x]) ++ l) by by rewrite <- app_assoc.
    replace (S (length pre)) with (length (pre ++ [x]))
      by (rewrite length_app; simpl; lia).
    destruct (Qlt_bool v x) eqn:Hlt.
    + apply IH.
      * by rewrite lookup_app_r, Nat.sub_diag by lia.
      * eapply first_max_snoc_new; [done..|]. by apply Qlt_bool_true.
    + apply IH.
      * by apply lookup_app_l_Some.
      * eapply first_max_snoc_keep; [done..|]. by apply Qlt_bool_false.
Qed.

Lemma argmax_spec (a : ndarray Q) :
  data a ≠ [] →
  ∃ p, argmax a = Ok p ∧ first_max (data a) p ∧ p < length (data a).
Proof.
  intros Hne. unfold argmax. destruct (data a) as [|x l]; [done|].
  eexists. split; [done|].
  assert (first_max (x :: l) (argmax_from 0 x 1 l)) as Hmax.
  { apply (argmax_from_spec l [x] 0 x); [done|].
    exists x. split_and!; [done| |intros; lia].
    intros [|[|j]] w Hw; simplify_eq/=. apply Qle_refl. }
  split; [done|]. destruct Hmax as (v & Hv & _). by eapply lookup_lt_Some.
Qed.

(** ** Cell 6: the mean image *)

Lemma setup_mean_image_ok {M} (values : list M) :
  length values = 3072 →
  ∃ m, setup_mean_image values = Ok m ∧ shape m = [3; 32; 32] ∧ well_formed m.
Proof.
  intros Hlen. unfold setup_mean_image.
  rewrite (reshape_ok [32; 32; 3]) by done. rewrite bind_Ok.
  destruct (transpose_201 (mk_ndarray [32; 32; 3] (data (array values))) 32 32 3)
    as (m & Hm & Hs & Hwf & _); [done..|].
  by exists m.
Qed.

Lemma setup_mean_image_raises {M} (values : list M) :
  length values ≠ 3072 → setup_mean_image values = Raise ValueError.
Proof.
  intros Hlen. unfold setup_mean_image.
  by rewrite (reshape_raises [32; 32; 3]).
Qed.

Lemma setup_mean_image_inv {M} (values : list M) (m : ndarray M) :
  setup_mean_image values = Ok m → shape m = [3; 32; 32] ∧ well_formed m.
Proof.
  intros Hm. destruct (decide (length values = 3072)) as [Hlen|Hlen].
  - destruct (setup_mean_image_ok values Hlen) as (m' & Hm' & Hs & Hwf).
    rewrite Hm in Hm'. by injection Hm' as <-.
  - rewrite setup_mean_image_raises in Hm by done. discriminate.
Qed.

(** ** Cell 7: the worker *)

Lemma lift_bind_Ok {A B} (a : A) (f : A → gen B) : lift (Ok a) ≫= f = f a.
Proof. unfold lift, mbind, gen_bind. by destruct (f a). Qed.

Section Worker.
Context {F M Model : Type}.
Context (float32_of : Z → F) (fsub : F → M → F).
Context (SparkFiles_get : string → string).
Context (load_model : string → result Model).
Context (model_eval : Model → ndarray F → result (ndarray Q)).
Context (mean_image : ndarray M).

Local Abbreviation path := (SparkFiles_get "./model.dnn"%string).
Local Abbreviation worker :=
  (run_worker float32_of fsub SparkFiles_get load_model model_eval mean_image).
Local Abbreviation score := (score_record float32_of fsub model_eval mean_image).
Local Abbreviation body loaded_model := (λ rec : record,
  preprocessed_image ←
    lift (get_preprocessed_image float32_of fsub rec.1.1 mean_image);
  dnn_output ← lift (model_eval loaded_model preprocessed_image);
  predicted ← lift (argmax (squeeze dnn_output));
  yield rec.1.2 (Z.of_nat predicted)).

Lemma run_worker_unfold (records : iterator record) :
  worker records =
  match load_model path with
  | Ok loaded_model =>
      (LoadModel path :: (for_each records (body loaded_model)).1,
       (for_each records (body loaded_model)).2)
  | Raise e => ([LoadModel path], Raise e)
  end.
Proof.
  unfold run_worker. destruct (load_model path) as [m|e]; [|done].
  unfold mbind at 1, gen_bind. by destruct (for_each _ _).
Qed.

Lemma body_score (loaded_model : Model) (rec : record) :
  body loaded_model rec =
  match score loaded_model rec with
  | Ok res => ([Yield res.1 res.2], Ok tt)
  | Raise e => ([], Raise e)
  end.
Proof.
  unfold score_record.
  destruct (get_preprocessed_image _ _ _ _) as [x|]; [|reflexivity].
  rewrite bind_Ok, lift_bind_Ok.
  destruct (model_eval _ _) as [out|]; [|reflexivity].
  rewrite bind_Ok, lift_bind_Ok. destruct (argmax _); [|reflexivity].
  by rewrite lift_bind_Ok.
Qed.

Lemma for_each_cons_ok (loaded_model : Model) (r : result record)
    (it : iterator record) (res : Z * Z) :
  r ≫= score loaded_model = Ok res →
  for_each (r :: it) (body loaded_model) =
  (Yield res.1 res.2 :: (for_each it (body loaded_model)).1,
   (for_each it (body loaded_model)).2).
Proof.
  intros Hr. destruct r as [rec|]; [|done]. rewrite bind_Ok in Hr.
  cbn [for_each]. rewrite lift_bind_Ok, body_score, Hr.
  unfold mbind, gen_bind. by destruct (for_each it _).
Qed.

Lemma for_each_cons_raise (loaded_model : Model) (r : result record)
    (it : iterator record) (e : exn) :
  r ≫= score loaded_model = Raise e →
  for_each (r :: it) (body loaded_model) = ([], Raise e).
Proof.
  intros Hr. destruct r as [rec|e']; [|by simplify_eq/=].
  rewrite bind_Ok in Hr.
  cbn [for_each]. by rewrite lift_bind_Ok, body_score, Hr.
Qed.

(** The loop yields and never loads. *)
Lemma for_each_loads (loaded_model : Model) (it : iterator record) :
  loads (for_each it (body loaded_model)).1 = [].
Proof.
  induction it as [|r it IH]; [done|].
  destruct (r ≫= score loaded_model) as [res|e] eqn:Hr.
  - by rewrite (for_each_cons_ok _ _ _ _ Hr).
  - by rewrite (for_each_cons_raise _ _ _ _ Hr).
Qed.

(** Every record scored: one result each, in order. *)
Lemma for_each_all_ok (loaded_model : Model) (it : iterator record)
    (results : list (Z * Z)) :
  Forall2 (λ r res, r ≫= score loaded_model = Ok res) it results →
  for_each it (body loaded_model) = (uncurry Yield <$> results, Ok tt).
Proof.
  induction 1 as [|r res it results Hr _ IH]; [done|].
  rewrite (for_each_cons_ok _ _ _ _ Hr), IH. by destruct res.
Qed.

(** A record that fails ends the loop there, after the results of the
    records before it. *)
Lemma for_each_stops (loaded_model : Model) (good rest : iterator record)
    (bad : result record) (results : list (Z * Z)) (e : exn) :
  Forall2 (λ r res, r ≫= score loaded_model = Ok res) good results →
  bad ≫= score loaded_model = Raise e →
  for_each (good ++ bad :: rest) (body loaded_model)
  = (uncurry Yield <$> results, Raise e).
Proof.
  intros Hgood Hbad. induction Hgood as [|r res it results Hr _ IH].
  - by rewrite app_nil_l, (for_each_cons_raise _ _ _ _ Hbad).
  - rewrite <- app_comm_cons, (for_each_cons_ok _ _ _ _ Hr), IH. by destruct res.
Qed.

(** Whatever happens, the labels yielded are the labels of the first
    records, in order. *)
Lemma for_each_labels (loaded_model : Model) (records : list record) :
  ∃ results,
    (for_each (iter records) (body loaded_model)).1 = uncurry Yield <$> results ∧
    results.*1 `prefix_of` (λ rec : record, rec.1.2) <$> records ∧
    ((for_each (iter records) (body loaded_model)).2 = Ok tt →
     results.*1 = (λ rec : record, rec.1.2) <$> records).
Proof.
  induction records as [|rec records (results & Htr & Hpre & Hall)].
  - exists []. split_and!; [done|apply prefix_nil|done].
  - change (iter (rec :: records)) with (Ok rec :: iter records).
    destruct (score loaded_model rec) as [res|e] eqn:Hr.
    + rewrite (for_each_cons_ok _ (Ok rec) _ res) by done.
      exists (res :: results). cbn [fst snd]. rewrite Htr.
      assert (res.1 = rec.1.2) as Hlabel.
      { unfold score_record in Hr.
        destruct (get_preprocessed_image _ _ _ _); [|done]. rewrite bind_Ok in Hr.
        destruct (model_eval _ _); [|done]. rewrite bind_Ok in Hr.
        destruct (argmax _); [|done]. rewrite bind_Ok in Hr.
        unfold mret, result_ret in Hr. by injection Hr as <-. }
      split_and!.
      * by destruct res.
      * rewrite !fmap_cons, Hlabel. by apply prefix_cons.
      * intros Hend. rewrite !fmap_cons, Hlabel, (Hall Hend). done.
    + rewrite (for_each_cons_raise _ (Ok rec) _ e) by done.
      exists []. split_and!; [done|apply prefix_nil|done].
Qed.

Lemma yields_results (results : list (Z * Z)) :
  yields (LoadModel path :: (uncurry Yield <$> results)) = results.
Proof.
  unfold yields. rewrite bind_cons, app_nil_l.
  induction results as [|[t p] results IH]; [done|].
  rewrite fmap_cons, bind_cons, IH. done.
Qed.

(** What the loop computes for a record of 3072 pixels once the mean image
    is set up and the model returns ten scores. *)
Lemma score_record_reshaped (values : list M) (loaded_model : Model) (rec : record) :
  setup_mean_image values = Ok mean_image →
  (∀ x, shape x = [3; 32; 32] →
     ∃ scores, model_eval loaded_model x = Ok scores ∧ length (data scores) = 10) →
  length (data rec.1.1) = 3072 →
  ∃ res t x scores p,
    reshape_image rec = Ok (t, rec.1.2, rec.2) ∧
    get_preprocessed_image float32_of fsub t mean_image = Ok x ∧
    model_eval loaded_model x = Ok scores ∧
    first_max (data scores) p ∧ p < 10 ∧
    res = (rec.1.2, Z.of_nat p) ∧
    score loaded_model (t, rec.1.2, rec.2) = Ok res.
Proof.
  intros Hmean Hmodel Hlen. destruct rec as [[image label] filename].
  apply setup_mean_image_inv in Hmean as [Hms Hmwf].
  destruct (reshape_image_ok image label filename Hlen) as (t & Ht & Hts & Htwf & _).
  destruct (get_preprocessed_image_steps float32_of fsub t mean_image 32 32 3)
    as (u & _ & _ & _ & Hx); [done..|].
  set (x := mk_ndarray [3; 32; 32] (zip_with fsub (data u) (data mean_image))) in Hx.
  destruct (Hmodel x eq_refl) as (scores & Hscores & Hten).
  destruct (argmax_spec (squeeze scores)) as (p & Hp & Hmax & Hlt).
  { simpl. intros E. rewrite E in Hten. done. }
  simpl in Hmax, Hlt. rewrite Hten in Hlt.
  exists (label, Z.of_nat p), t, x, scores, p. split_and!; try done.
  unfold score_record. cbn [fst snd]. by rewrite Hx, bind_Ok, Hscores, bind_Ok, Hp.
Qed.

(** C4: with the mean image set up, the model loaded and returning ten
    scores, the worker run over a partition of records of 3072 pixels each
    ends normally after yielding one result per record, in the order of the
    records; each result pairs the label of its record with the first
    position of the largest of the ten scores of the preprocessed image. *)
Theorem labelled_images_one_result_per_record (values : list M)
    (loaded_model : Model) (partition : list record) :
  setup_mean_image values = Ok mean_image →
  load_model path = Ok loaded_model →
  (∀ x, shape x = [3; 32; 32] →
     ∃ scores, model_eval loaded_model x = Ok scores ∧ length (data scores) = 10) →
  Forall (λ rec : record, length (data rec.1.1) = 3072) partition →
  ∃ results,
    labelled_images float32_of fsub SparkFiles_get load_model model_eval
      mean_image partition
    = (LoadModel path :: (uncurry Yield <$> results), Ok tt) ∧
    Forall2 (λ (rec : record) (res : Z * Z),
      res.1 = rec.1.2 ∧
      ∃ t x scores p,
        reshape_image rec = Ok (t, rec.1.2, rec.2) ∧
        get_preprocessed_image float32_of fsub t mean_image = Ok x ∧
        model_eval loaded_model x = Ok scores ∧
        first_max (data scores) p ∧ p < 10 ∧ res.2 = Z.of_nat p)
      partition results.
Proof.
  intros Hmean Hload Hmodel Hpart.
  assert (∃ results,
    Forall2 (λ (rec : record) (res : Z * Z),
      (Ok rec ≫= reshape_image) ≫= score loaded_model = Ok res ∧
      res.1 = rec.1.2 ∧
      ∃ t x scores p,
        reshape_image rec = Ok (t, rec.1.2, rec.2) ∧
        get_preprocessed_image float32_of fsub t mean_image = Ok x ∧
        model_eval loaded_model x = Ok scores ∧
        first_max (data scores) p ∧ p < 10 ∧ res.2 = Z.of_nat p)
      partition results) as [results Hres].
  { induction Hpart as [|rec partition Hlen _ [results IH]]; [by exists []|].
    destruct (score_record_reshaped values loaded_model rec Hmean Hmodel Hlen)
      as (res & t & x & scores & p & Ht & Hx & Hs & Hmax & Hp & -> & Hscore).
    eexists (_ :: results). constructor; [|done].
    split_and!; [by rewrite bind_Ok, Ht, bind_Ok|done|].
    by exists t, x, scores, p. }
  exists results. split.
  - unfold labelled_images. rewrite run_worker_unfold, Hload.
    rewrite (for_each_all_ok loaded_model _ results); [done|].
    unfold rdd_map, iter. rewrite <- list_fmap_compose.
    apply Forall2_fmap_l. eapply Forall2_impl; [done|]. by intros ?? [? _].
  - eapply Forall2_impl; [done|]. by intros ?? (_ & ? & ?).
Qed.

(** C5: the worker loads the model exactly once whatever the records are and
    however the run ends; on the empty partition the load is all it does. *)
Theorem run_worker_loads_once (records : iterator record) :
  loads (worker records).1 = [path] ∧
  worker [] = ([LoadModel path], load_model path ≫= λ _, Ok tt).
Proof.
  rewrite !run_worker_unfold. destruct (load_model path) as [m|e]; [|done].
  split; [|done]. cbn [fst]. unfold loads. rewrite bind_cons.
  fold (loads (for_each records (body m)).1). by rewrite for_each_loads.
Qed.

(** C9: when loading the model fails the worker stops there: it has made the
    one load attempt, it has yielded nothing, and the exception of the load
    is the exception of the worker. *)
Theorem run_worker_load_failure (records : iterator record) (e : exn) :
  load_model path = Raise e →
  worker records = ([LoadModel path], Raise e) ∧
  yields (worker records).1 = [].
Proof. intros Hload. rewrite run_worker_unfold, Hload. done. Qed.

(** The label and the file name of a record have no part in its scoring but
    for the label being handed on. *)
Lemma score_record_label (loaded_model : Model) (image : ndarray Z)
    (label label' : Z) (filename filename' : string) :
  match score loaded_model (image, label, filename) with
  | Ok res =>
      res.1 = label ∧
      score loaded_model (image, label', filename') = Ok (label', res.2)
  | Raise e => score loaded_model (image, label', filename') = Raise e
  end.
Proof.
  unfold score_record. cbn [fst snd].
  destruct (get_preprocessed_image _ _ _ _) as [x|]; [|done]. rewrite !bind_Ok.
  destruct (model_eval _ _) as [out|]; [|done]. rewrite !bind_Ok.
  by destruct (argmax _).
Qed.

Lemma for_each_relabel (loaded_model : Model) (records records' : list record) :
  Forall2 (λ rec rec' : record, rec.1.1 = rec'.1.1) records records' →
  (for_each (iter records') (body loaded_model)).2
  = (for_each (iter records) (body loaded_model)).2 ∧
  ∃ results results',
    (for_each (iter records) (body loaded_model)).1 = uncurry Yield <$> results ∧
    (for_each (iter records') (body loaded_model)).1 = uncurry Yield <$> results' ∧
    results'.*2 = results.*2 ∧
    results'.*1 = take (length results) ((λ rec : record, rec.1.2) <$> records').
Proof.
  induction 1 as [|rec rec' records records' Himage _ IH].
  { split; [done|]. by exists [], []. }
  destruct IH as (Hend & results & results' & Htr & Htr' & Hpred & Hlabel).
  destruct rec as [[image label] filename], rec' as [[image' label'] filename'].
  cbn [fst snd] in Himage. subst image'.
  change (iter (?x :: ?l)) with (Ok x :: iter l).
  pose proof (score_record_label loaded_model image label label' filename filename')
    as Hscore.
  destruct (score loaded_model (image, label, filename)) as [res|e] eqn:Hres.
  - destruct Hscore as [Hl Hscore'].
    rewrite (for_each_cons_ok _ (Ok (image, label, filename)) _ res) by done.
    rewrite (for_each_cons_ok _ (Ok (image, label', filename')) _ (label', res.2))
      by done.
    cbn [fst snd]. split; [done|].
    exists (res :: results), ((label', res.2) :: results').
    rewrite Htr, Htr'. split_and!.
    + by destruct res.
    + done.
    + rewrite !fmap_cons. cbn [snd]. by rewrite Hpred.
    + rewrite !fmap_cons. cbn [fst snd length take]. by rewrite Hlabel.
  - rewrite (for_each_cons_raise _ (Ok (image, label, filename)) _ e) by done.
    rewrite (for_each_cons_raise _ (Ok (image, label', filename')) _ e) by done.
    split; [done|]. by exists [], [].
Qed.

(** C10: [reshape_image] returns the label and the file name it was given;
    the labels the worker yields are the labels of its first records, in
    order and unchanged, all of them when it ends normally; and no label is
    checked: with the same images and any other labels and file names the
    worker ends the same way and yields as many results with the same
    predictions, each with the label of its record, so that a record is
    scored with a label outside 0 to 9 whenever it is scored with one
    inside. *)
Theorem labels_pass_through :
  (∀ image label filename r,
     reshape_image (image, label, filename) = Ok r →
     r.1.2 = label ∧ r.2 = filename) ∧
  (∀ records : list record,
     (yields (worker (iter records)).1).*1
       `prefix_of` (λ rec : record, rec.1.2) <$> records ∧
     ((worker (iter records)).2 = Ok tt →
      (yields (worker (iter records)).1).*1
        = (λ rec : record, rec.1.2) <$> records)) ∧
  (∀ records records' : list record,
     Forall2 (λ rec rec' : record, rec.1.1 = rec'.1.1) records records' →
     (worker (iter records')).2 = (worker (iter records)).2 ∧
     (yields (worker (iter records')).1).*2
     = (yields (worker (iter records)).1).*2 ∧
     (yields (worker (iter records')).1).*1
     = take (length (yields (worker (iter records)).1))
         ((λ rec : record, rec.1.2) <$> records')).
Proof.
  split_and!.
  - intros image label filename r. unfold reshape_image.
    destruct (reshape _ _); [|done]. rewrite bind_Ok.
    destruct (transpose _ _ _ _); [|done]. rewrite bind_Ok.
    unfold mret, result_ret. by intros [= <-].
  - intros records. rewrite run_worker_unfold.
    destruct (load_model path) as [m|e]; [|split; [apply prefix_nil|done]].
    destruct (for_each_labels m records) as (results & Htr & Hpre & Hall).
    cbn [fst snd]. rewrite Htr, yields_results. done.
  - intros records records' Hsame. rewrite !run_worker_unfold.
    destruct (load_model path) as [m|e]; [|done].
    destruct (for_each_relabel m records records' Hsame)
      as (Hend & results & results' & Htr & Htr' & Hpred & Hlabel).
    cbn [fst snd]. rewrite Htr, Htr', !yields_results. done.
Qed.

End Worker.

Lemma labelled_images_one_result_per_record_witness :
  ∃ results,
    labelled_images id Z.sub id stub_load stub_eval zero_mean [raw_frog; raw_odd]
    = (LoadModel "./model.dnn" :: (uncurry Yield <$> results), Ok tt) ∧
    length results = 2.
Proof.
  destruct (labelled_images_one_result_per_record id Z.sub id stub_load stub_eval
              zero_mean (replicate 3072 0%Z) tt [raw_frog; raw_odd])
    as (results & Hrun & Hall).
  - vm_compute. reflexivity.
  - reflexivity.
  - intros x _. eexists. split; reflexivity.
  - repeat constructor.
  - exists results. split; [exact Hrun|].
    symmetry. exact (Forall2_length _ _ _ Hall).
Defined.

Lemma run_worker_load_failure_witness :
  run_worker id Z.sub id failing_load stub_eval zero_mean (iter [frog; odd])
  = ([LoadModel "./model.dnn"],
     Raise (ExternalError "model file cannot be read")) ∧
  yields (run_worker id Z.sub id failing_load stub_eval zero_mean
            (iter [frog; odd])).1 = [].
Proof.
  apply (run_worker_load_failure id Z.sub id failing_load stub_eval zero_mean).
  reflexivity.
Defined.

Lemma labels_pass_through_witness :
  (yields (stub_worker (iter [frog; odd])).1).*1 = [6%Z; 12%Z] ∧
  (stub_worker (iter [frog; odd])).2 = (stub_worker (iter [frog; frog])).2.
Proof.
  split.
  - apply (proj2 (proj1 (proj2 (labels_pass_through id Z.sub id stub_load
                                  stub_eval zero_mean)) [frog; odd])).
    vm_compute. reflexivity.
  - apply (proj2 (proj2 (labels_pass_through id Z.sub id stub_load stub_eval
                           zero_mean)) [frog; frog] [frog; odd]).
    repeat constructor.
Defined.

(** ** Cells 6 and 8: the mean image and the images *)

Lemma reshape_image_inv (rec r : record) :
  reshape_image rec = Ok r → shape r.1.1 = [32; 32; 3] ∧ well_formed r.1.1.
Proof.
  destruct rec as [[image label] filename]. intros Hr.
  destruct (decide (length (data image) = 3072)) as [Hlen|Hlen].
  - destruct (reshape_image_ok image label filename Hlen) as (t & Ht & Hs & Hwf & _).
    rewrite Hr in Ht. by injection Ht as ->.
  - unfold reshape_image in Hr.
    by rewrite (reshape_raises [3; 32; 32]) in Hr.
Qed.

Section SetupThenScore.
Context {F M Model : Type}.
Context (float32_of : Z → F) (fsub : F → M → F).
Context (SparkFiles_get : string → string).
Context (load_model : string → result Model).
Context (model_eval : Model → ndarray F → result (ndarray Q)).

(** C3: a mean image that does not have the size of the images is found by
    the setup, once: when the mean-image file does not hold 32 * 32 * 3
    numbers the run ends in the setup cell with ValueError, before the model
    is loaded and before any record is read; and when the setup has passed,
    the worker runs with the mean image of the setup and the preprocessing of
    no record that [reshape_image] returned raises: no mismatch is left to be
    found record by record. *)
Theorem mean_image_mismatch_found_at_setup (values : list M)
    (partition : list record) :
  (length values ≠ 3072 →
   setup_mean_image values = Raise ValueError ∧
   setup_and_score float32_of fsub SparkFiles_get load_model model_eval
     values partition = ([], Raise ValueError)) ∧
  (∀ mean_image,
     setup_mean_image values = Ok mean_image →
     setup_and_score float32_of fsub SparkFiles_get load_model model_eval
       values partition
     = labelled_images float32_of fsub SparkFiles_get load_model model_eval
         mean_image partition ∧
     ∀ rec r, reshape_image rec = Ok r →
       ∃ x, get_preprocessed_image float32_of fsub r.1.1 mean_image = Ok x ∧
            shape x = [3; 32; 32]).
Proof.
  split.
  - intros Hlen. unfold setup_and_score.
    by rewrite setup_mean_image_raises.
  - intros mean_image Hmean. unfold setup_and_score.
    rewrite Hmean, lift_bind_Ok. split; [done|].
    intros rec r Hr.
    apply setup_mean_image_inv in Hmean as [Hms Hmwf].
    apply reshape_image_inv in Hr as [Hs Hwf].
    destruct (get_preprocessed_image_steps float32_of fsub r.1.1 mean_image 32 32 3)
      as (t & _ & _ & _ & ->); [done..|].
    by eexists.
Qed.

End SetupThenScore.

Lemma mean_image_mismatch_found_at_setup_witness :
  setup_and_score id Z.sub id stub_load stub_eval (ramp 3071) [raw_frog; raw_odd]
  = ([], Raise ValueError) ∧
  ∃ r x, reshape_image raw_frog = Ok r ∧
         get_preprocessed_image id Z.sub r.1.1 zero_mean = Ok x ∧
         shape x = [3; 32; 32].
Proof.
  split.
  - apply (proj1 (mean_image_mismatch_found_at_setup id Z.sub id stub_load
                    stub_eval (ramp 3071) [raw_frog; raw_odd])).
    vm_compute. lia.
  - assert (setup_mean_image (replicate 3072 0%Z) = Ok zero_mean) as Hsetup
      by (vm_compute; reflexivity).
    destruct (reshape_image_ok (array (ramp 3072)) 6%Z
                "frog_s_000001.png"%string eq_refl) as (t & Ht & _).
    destruct (proj2 (proj2 (mean_image_mismatch_found_at_setup id Z.sub id
                              stub_load stub_eval (replicate 3072 0%Z) [raw_frog])
                       zero_mean Hsetup) raw_frog _ Ht) as (x & Hx & Hs).
    exists (t, 6%Z, "frog_s_000001.png"%string), x. by split_and!.
Defined.

(** ** Cell 9: accuracy *)

(** C1, as amended: for a collection that is not empty the percentage is
    100 times the number of correct results over the number of results; for
    the empty collection the division raises ZeroDivisionError. *)
Theorem accuracy_percent_spec (results : list prediction) :
  (results ≠ [] →
   ∃ q, accuracy_percent results = Ok q ∧
        (q == 100 * (inject_Z (Z.of_nat (num_correct results))
                     / inject_Z (Z.of_nat (num_total results))))%Q) ∧
  (results = [] → accuracy_percent results = Raise ZeroDivisionError).
Proof.
  split; [|by intros ->].
  intros Hne. unfold accuracy_percent, truediv, num_total.
  destruct results as [|r results]; [done|]. clear Hne.
  set (n := length (r :: results)). set (c := num_correct (r :: results)).
  assert (0 < Z.of_nat n)%Z as Hn by (subst n; simpl; lia).
  destruct (Z.eqb_spec (Z.of_nat n) 0) as [|_]; [lia|].
  eexists. split; [done|].
  rewrite Z.sgn_pos, Z.mul_1_r, Z.abs_eq by lia.
  rewrite Qmake_Qdiv, Z2Pos.id by done.
  rewrite inject_Z_mult. unfold Qdiv. by rewrite Qmult_assoc.
Qed.

Lemma accuracy_percent_spec_witness :
  ∃ q, accuracy_percent [(0, 0); (1, 0); (2, 0)]%Z = Ok q ∧ (q == 100 # 3)%Q.
Proof.
  destruct (proj1 (accuracy_percent_spec [(0, 0); (1, 0); (2, 0)]%Z))
    as (q & Hq & Heq); [discriminate|].
  exists q. split; [exact Hq|]. rewrite Heq. reflexivity.
Defined.

(** C1, as stated, fails: on the empty collection the cell does not give
    0 but raises. *)
Lemma accuracy_percent_empty_raises :
  accuracy_percent [] = Raise ZeroDivisionError ∧
  ¬ ∃ q, accuracy_percent [] = Ok q ∧ (q == 0)%Q.
Proof. split; [done|]. by intros (q & Hq & _). Qed.

(** ** Cell 12: confusion matrix *)

Lemma elem_of_sorted_unique (l : list Z) (x : Z) : x ∈ sorted_unique l ↔ x ∈ l.
Proof.
  unfold sorted_unique. rewrite merge_sort_Permutation. apply elem_of_remove_dups.
Qed.

Lemma sorted_unique_sorted (l : list Z) :
  Sorted Z.le (sorted_unique l) ∧ NoDup (sorted_unique l).
Proof.
  unfold sorted_unique. split; [apply (Sorted_merge_sort _)|].
  rewrite merge_sort_Permutation. apply NoDup_remove_dups.
Qed.

Lemma class_has_name (t : Z) : (0 ≤ t < 10)%Z → is_Some (label_to_name_dict !! t).
Proof.
  intros Ht.
  assert (t = 0 ∨ t = 1 ∨ t = 2 ∨ t = 3 ∨ t = 4 ∨ t = 5 ∨ t = 6 ∨ t = 7
          ∨ t = 8 ∨ t = 9)%Z as H by lia.
  repeat (destruct H as [->|H]; [by eexists|]). subst t. by eexists.
Qed.

Lemma mapM_getitem {V} (d : gmap Z V) (keys : list Z) :
  Forall (λ k, is_Some (d !! k)) keys →
  ∃ vs, mapM (getitem d) keys = Ok vs ∧ length vs = length keys.
Proof.
  induction 1 as [|k keys [v Hv] _ (vs & Hvs & Hlen)]; [by exists []|].
  exists (v :: vs). cbn [mapM].
  assert (getitem d k = Ok v) as -> by (unfold getitem; by rewrite Hv).
  rewrite bind_Ok, Hvs.
  split; [done|]. simpl. by rewrite Hlen.
Qed.

Lemma confusion_matrix_ok (results : list prediction) (labels : list Z) (t : Z) :
  t ∈ labels → t ∈ results.*1 →
  confusion_matrix results labels
  = Ok ((λ t, count_pair results t <$> labels) <$> labels).
Proof.
  intros Hl Ht. unfold confusion_matrix.
  destruct (forallb _ labels) eqn:Hall; [|done].
  rewrite forallb_forall in Hall. apply list_elem_of_In, Hall in Hl.
  by apply bool_decide_eq_true in Hl.
Qed.

(** C2, as amended: for a collection that is not empty and whose true labels
    are classes 0 to 9, the matrix is indexed by the sorted distinct true
    labels of the collection: it has a row for each of them, each row has a
    count for each of them, the count of the results with that true and that
    predicted label, zero included; a label that is the true label of no
    result has no row and no column. *)
Theorem confusion_cell_spec (results : list prediction) :
  results ≠ [] →
  Forall (λ r : prediction, 0 ≤ r.1 < 10)%Z results →
  ∃ labels named_labels cm,
    confusion_cell results = Ok (labels, named_labels, cm) ∧
    Sorted Z.le labels ∧ NoDup labels ∧ (∀ t, t ∈ labels ↔ t ∈ results.*1) ∧
    length named_labels = length labels ∧
    length cm = length labels ∧
    Forall (λ row, length row = length labels) cm ∧
    (∀ t p, t ∈ labels → p ∈ labels →
       cm_entry labels cm t p = Some (count_pair results t p)) ∧
    (∀ t p, t ∉ labels ∨ p ∉ labels → cm_entry labels cm t p = None).
Proof.
  intros Hne Hrange. unfold confusion_cell.
  set (labels := sorted_unique results.*1).
  assert (∀ t, t ∈ labels ↔ t ∈ results.*1) as Hin
    by apply elem_of_sorted_unique.
  destruct (mapM_getitem label_to_name_dict labels) as (names & -> & Hnames).
  { apply Forall_forall. intros t Ht%Hin. apply class_has_name.
    apply list_elem_of_fmap in Ht as (r & -> & Hr).
    by eapply Forall_forall in Hrange. }
  assert (∃ t0, t0 ∈ results.*1) as [t0 Ht0].
  { destruct results as [|r0 ?]; [done|]. exists r0.1.
    rewrite fmap_cons. apply list_elem_of_here. }
  rewrite bind_Ok, (confusion_matrix_ok results labels t0), bind_Ok;
    [|by apply Hin|done].
  destruct (sorted_unique_sorted results.*1) as [Hsorted Hnodup].
  eexists _, _, _. split; [done|]. split_and!; try done.
  - by rewrite length_fmap.
  - apply Forall_fmap, Forall_forall. intros t _. simpl. by rewrite length_fmap.
  - intros t p Ht Hp. unfold cm_entry.
    destruct (list_find_elem_of (λ l, l = t) labels t Ht eq_refl) as [[i t'] Hi].
    destruct (list_find_elem_of (λ l, l = p) labels p Hp eq_refl) as [[j p'] Hj].
    rewrite Hi, Hj. simpl.
    apply list_find_Some in Hi as (Hi & -> & _).
    apply list_find_Some in Hj as (Hj & -> & _).
    rewrite list_lookup_fmap, Hi. simpl. by rewrite list_lookup_fmap, Hj.
  - intros t p Hor. unfold cm_entry.
    destruct (list_find (λ l, l = t) labels) as [[i t']|] eqn:Hi; [|done].
    destruct (list_find (λ l, l = p) labels) as [[j p']|] eqn:Hj; [|done].
    apply list_find_Some in Hi as (Hi%list_elem_of_lookup_2 & -> & _).
    apply list_find_Some in Hj as (Hj%list_elem_of_lookup_2 & -> & _).
    by destruct Hor.
Qed.

Lemma confusion_cell_spec_witness :
  ∃ labels named_labels cm,
    confusion_cell [(0, 0); (1, 0); (2, 0)]%Z = Ok (labels, named_labels, cm) ∧
    length cm = length labels.
Proof.
  destruct (confusion_cell_spec [(0, 0); (1, 0); (2, 0)]%Z)
    as (labels & named_labels & cm & Hrun & _ & _ & _ & _ & Hrows & _).
  - discriminate.
  - repeat constructor; simpl; lia.
  - exists labels, named_labels, cm. split; [exact Hrun|exact Hrows].
Defined.

(** C2, as stated, fails: when every true label is 0 the matrix is the single
    count of the pair (0, 0), with no row or column for the nine other
    classes. *)
Lemma confusion_cell_not_ten_by_ten :
  confusion_cell [(0, 0); (0, 0)]%Z = Ok ([0%Z], ["airplane"%string], [[2]]) ∧
  cm_entry [0%Z] [[2]] 3 5 = None.
Proof. split; vm_compute; reflexivity. Qed.

(** * Further properties of the cells *)

(** ** Cell 6: the layout of the mean image *)

(** Moving the last axis to the front and back gives the array again. *)
Lemma transpose_201_120 {A} (a t : ndarray A) (d0 d1 d2 : nat) :
  shape a = [d0; d1; d2] → well_formed a →
  transpose 2 0 1 a = Ok t → transpose 1 2 0 t = Ok a.
Proof.
  intros Hs Hwf Ht.
  destruct (transpose_201 a d0 d1 d2 Hs Hwf) as (t' & Ht' & Hst & Hwft & Hit).
  rewrite Ht in Ht'. injection Ht' as <-.
  destruct (transpose_120 t d2 d0 d1 Hst Hwft) as (u & Hu & Hsu & Hwfu & Hiu).
  rewrite Hu. f_equal. apply (ndarray3_ext u a d0 d1 d2); try done.
  intros i j k Hi Hj Hk. rewrite Hiu, Hit by done. done.
Qed.

Lemma setup_mean_image_items {M} (values : list M) :
  length values = 3072 →
  ∃ m, setup_mean_image values = Ok m ∧ shape m = [3; 32; 32] ∧ well_formed m ∧
       transpose 1 2 0 m = Ok (mk_ndarray [32; 32; 3] values) ∧
       ∀ c h w, c < 3 → h < 32 → w < 32 →
         item3 m c h w = values !! ((h * 32 + w) * 3 + c).
Proof.
  intros Hlen. unfold setup_mean_image.
  rewrite (reshape_ok [32; 32; 3]) by done. rewrite bind_Ok.
  set (r := mk_ndarray [32; 32; 3] (data (array values))).
  destruct (transpose_201 r 32 32 3 eq_refl Hlen) as (m & Hm & Hs & Hwf & Hitem).
  exists m. split_and!; try done.
  - by apply (transpose_201_120 r m 32 32 3).
  - intros c h w Hc Hh Hw. rewrite Hitem by done.
    by rewrite (item3_in_range r 32 32 3).
Qed.

(** X1: the 3072 numbers of the mean-image file are read pixel by pixel with
    the three channel values of a pixel together: item (c, h, w) of the mean
    image is number [(h * 32 + w) * 3 + c] of the file, and the numbers are
    recovered from the mean image by [transpose(1, 2, 0)] and
    [reshape(3072)]. *)
Theorem setup_mean_image_layout {M} (values : list M) :
  length values = 3072 →
  ∃ m, setup_mean_image values = Ok m ∧ shape m = [3; 32; 32] ∧
       (∀ c h w, c < 3 → h < 32 → w < 32 →
          item3 m c h w = values !! ((h * 32 + w) * 3 + c)) ∧
       (transpose 1 2 0 m ≫= reshape [3072]) = Ok (array values).
Proof.
  intros Hlen.
  destruct (setup_mean_image_items values Hlen) as (m & Hm & Hs & _ & Hback & Hitem).
  exists m. split_and!; try done.
  rewrite Hback, bind_Ok, reshape_ok by done. unfold array. by rewrite Hlen.
Qed.

Lemma setup_mean_image_layout_witness :
  ∃ m, setup_mean_image (ramp 3072) = Ok m ∧ item3 m 1 2 5 = Some 208%Z.
Proof.
  destruct (setup_mean_image_layout (ramp 3072) eq_refl) as (m & Hm & _ & Hitem & _).
  exists m. split; [exact Hm|]. rewrite Hitem by lia. reflexivity.
Defined.

(** ** Cells 3, 6 and 7 together *)

Section PreprocessorMore.
Context {F M : Type} (float32_of : Z → F) (fsub : F → M → F).

Lemma get_preprocessed_image_item (my_image : ndarray Z) (mean_image : ndarray M)
    (H W C : nat) :
  shape my_image = [H; W; C] → well_formed my_image →
  shape mean_image = [C; H; W] → well_formed mean_image →
  ∃ x, get_preprocessed_image float32_of fsub my_image mean_image = Ok x ∧
       shape x = [C; H; W] ∧
       ∀ c h w, c < C → h < H → w < W →
         item3 x c h w
         = (px ← item3 my_image h w (C - 1 - c);
            mv ← item3 mean_image c h w;
            Some (fsub (float32_of px) mv)).
Proof.
  intros Hs Hwf Hms Hmwf.
  destruct (get_preprocessed_image_steps float32_of fsub my_image mean_image H W C)
    as (t & Hts & Htwf & Hti & ->); [done..|].
  eexists. split; [done|]. split; [done|].
  intros c h w Hc Hh Hw.
  rewrite (item3_in_range _ C H W) by done. simpl.
  rewrite lookup_zip_with.
  rewrite <- (item3_in_range t C H W), <- (item3_in_range mean_image C H W) by done.
  rewrite Hti by done.
  destruct (item3 my_image h w (C - 1 - c)) as [px|]; [|done]. simpl.
  by destruct (item3 mean_image c h w).
Qed.

(** X2: from the dataset row and the mean-image file to the model input:
    item (c, h, w) of the preprocessed image is the float of element
    [(2 - c) * 1024 + h * 32 + w] of the row (the colour planes of the row in
    reverse order) minus number [(h * 32 + w) * 3 + c] of the file. *)
Theorem preprocessed_from_row (buffer : list Z) (label : Z) (filename : string)
    (values : list M) :
  length buffer = 3072 → length values = 3072 →
  ∃ t m x,
    reshape_image (array buffer, label, filename) = Ok (t, label, filename) ∧
    setup_mean_image values = Ok m ∧
    get_preprocessed_image float32_of fsub t m = Ok x ∧
    shape x = [3; 32; 32] ∧
    ∀ c h w, c < 3 → h < 32 → w < 32 →
      ∃ px mv, buffer !! ((2 - c) * 1024 + h * 32 + w) = Some px ∧
               values !! ((h * 32 + w) * 3 + c) = Some mv ∧
               item3 x c h w = Some (fsub (float32_of px) mv).
Proof.
  intros Hbuf Hval.
  destruct (reshape_image_ok (array buffer) label filename Hbuf)
    as (t & Ht & Hts & Htwf & _ & Hti).
  destruct (setup_mean_image_items values Hval) as (m & Hm & Hms & Hmwf & _ & Hmi).
  destruct (get_preprocessed_image_item t m 32 32 3) as (x & Hx & Hxs & Hxi);
    [done..|].
  exists t, m, x. split_and!; try done.
  intros c h w Hc Hh Hw.
  destruct (lookup_lt_is_Some_2 buffer ((2 - c) * 1024 + h * 32 + w)) as [px Hpx];
    [lia|].
  destruct (lookup_lt_is_Some_2 values ((h * 32 + w) * 3 + c)) as [mv Hmv]; [lia|].
  exists px, mv. split_and!; try done.
  rewrite Hxi, Hti, Hmi by lia. simpl.
  replace (3 - 1 - c) with (2 - c) by lia. by rewrite Hpx, Hmv.
Qed.

End PreprocessorMore.

Lemma preprocessed_from_row_witness :
  ∃ t m x,
    reshape_image raw_frog = Ok (t, 6%Z, "frog_s_000001.png"%string) ∧
    setup_mean_image (replicate 3072 0%Z) = Ok m ∧
    get_preprocessed_image id Z.sub t m = Ok x ∧
    item3 x 0 2 5 = Some 2117%Z.
Proof.
  destruct (preprocessed_from_row id Z.sub (ramp 3072) 6%Z
              "frog_s_000001.png"%string (replicate 3072 0%Z) eq_refl eq_refl)
    as (t & m & x & Ht & Hm & Hx & _ & Hitem).
  exists t, m, x. split_and!; [exact Ht|exact Hm|exact Hx|].
  destruct (Hitem 0 2 5) as (px & mv & Hpx & Hmv & ->); [lia..|].
  vm_compute in Hpx, Hmv. injection Hpx as <-. injection Hmv as <-. reflexivity.
Defined.

(** ** Cell 7: which images and mean images the preprocessor takes *)

Lemma unravel3 (s0 s1 s2 i j k : nat) :
  j < s1 → k < s2 → unravel [s0; s1; s2] ((i * s1 + j) * s2 + k) = [i; j; k].
Proof.
  intros Hj Hk. cbn [unravel size foldr]. rewrite !Nat.mul_1_r, Nat.div_1_r.
  assert (j * s2 + k < s1 * s2) as Hjk.
  { assert (S j * s2 ≤ s1 * s2) by (apply Nat.mul_le_mono_r; lia). lia. }
  assert (((i * s1 + j) * s2 + k) / (s1 * s2) = i) as ->.
  { symmetry. apply (Nat.div_unique _ _ _ (j * s2 + k)); [done|lia]. }
  assert (((i * s1 + j) * s2 + k) mod (s1 * s2) = j * s2 + k) as ->.
  { symmetry. apply (Nat.mod_unique _ _ i); [done|lia]. }
  assert ((j * s2 + k) / s2 = j) as ->.
  { symmetry. apply (Nat.div_unique _ _ _ k); [done|lia]. }
  assert ((j * s2 + k) mod s2 = k) as ->.
  { symmetry. apply (Nat.mod_unique _ _ j); [done|lia]. }
  done.
Qed.

Lemma broadcast_offset3 (t0 t1 t2 s0 s1 s2 i j k : nat) :
  j < s1 → k < s2 →
  broadcast_offset [t0; t1; t2] [s0; s1; s2] ((i * s1 + j) * s2 + k)
  = ((if t0 =? 1 then 0 else i) * t1 + (if t1 =? 1 then 0 else j)) * t2
    + (if t2 =? 1 then 0 else k).
Proof.
  intros Hj Hk. unfold broadcast_offset. cbn [length]. rewrite Nat.sub_diag, drop_0.
  rewrite unravel3 by done. cbn [zip_with ravel size foldr]. lia.
Qed.

Lemma stretched_lt (dt ds i : nat) :
  dt = ds ∨ dt = 1 → i < ds → (if dt =? 1 then 0 else i) < dt.
Proof. intros [->| ->] Hi; [destruct (ds =? 1)|]; simpl; lia. Qed.

Lemma isub_broadcast3 {A B} (sub : A → B → A) (a : ndarray A) (b : ndarray B)
    (s0 s1 s2 t0 t1 t2 : nat) :
  shape a = [s0; s1; s2] → well_formed a →
  shape b = [t0; t1; t2] → well_formed b →
  t0 = s0 ∨ t0 = 1 → t1 = s1 ∨ t1 = 1 → t2 = s2 ∨ t2 = 1 →
  ∃ r, isub sub a b = Ok r ∧ shape r = [s0; s1; s2] ∧
       ∀ i j k, i < s0 → j < s1 → k < s2 →
         item3 r i j k
         = (x ← item3 a i j k;
            y ← item3 b (if t0 =? 1 then 0 else i) (if t1 =? 1 then 0 else j)
                        (if t2 =? 1 then 0 else k);
            Some (sub x y)).
Proof.
  intros Hsa Hwa Hsb Hwb H0 H1 H2. unfold isub. rewrite Hsa, Hsb.
  assert (broadcastable [t0; t1; t2] [s0; s1; s2] = true) as ->.
  { unfold broadcastable. cbn [length]. rewrite Nat.sub_diag, drop_0. simpl.
    rewrite !andb_true_iff, !orb_true_iff, !Nat.eqb_eq. done. }
  unfold well_formed in Hwa, Hwb. rewrite Hsa in Hwa. rewrite Hsb in Hwb.
  simpl in Hwa, Hwb.
  assert (Forall (λ o, o < length (data b))
            (broadcast_offset [t0; t1; t2] [s0; s1; s2]
               <$> seq 0 (length (data a)))) as Hoffs.
  { apply Forall_fmap, Forall_seq. intros n [_ Hn]. simpl.
    destruct (index3_decompose s0 s1 s2 n) as (i & j & k & Hi & Hj & Hk & ->); [lia|].
    rewrite broadcast_offset3 by done. rewrite Hwb.
    pose proof (stretched_lt t0 s0 i H0 Hi). pose proof (stretched_lt t1 s1 j H1 Hj).
    pose proof (stretched_lt t2 s2 k H2 Hk).
    pose proof (index3_bound t0 t1 t2 (if t0 =? 1 then 0 else i)
                  (if t1 =? 1 then 0 else j) (if t2 =? 1 then 0 else k)). lia. }
  eexists. split; [done|]. split; [done|].
  intros i j k Hi Hj Hk.
  rewrite (item3_in_range _ s0 s1 s2), (item3_in_range a s0 s1 s2) by done.
  rewrite (item3_in_range b t0 t1 t2) by (done || by eapply stretched_lt).
  cbn [data]. rewrite lookup_zip_with.
  destruct (data a !! ((i * s1 + j) * s2 + k)) as [x|] eqn:Hx; [|done]. simpl.
  rewrite gather_lookup, list_lookup_fmap by done.
  rewrite lookup_seq_lt.
  - simpl. rewrite broadcast_offset3 by done.
    by destruct (data b !! _).
  - by apply lookup_lt_Some in Hx.
Qed.

Section PreprocessorShapes.
Context {F M : Type} (float32_of : Z → F) (fsub : F → M → F).

Lemma get_preprocessed_image_transposed (my_image : ndarray Z) (H W C : nat) :
  shape my_image = [H; W; C] → well_formed my_image →
  ∃ t, shape t = [C; H; W] ∧ well_formed t ∧
       (∀ c h w, c < C → h < H → w < W →
          item3 t c h w = float32_of <$> item3 my_image h w (C - 1 - c)) ∧
       ∀ mean_image : ndarray M,
         get_preprocessed_image float32_of fsub my_image mean_image
         = isub fsub t mean_image.
Proof.
  intros Hs Hwf. unfold get_preprocessed_image.
  set (fl := astype float32_of my_image).
  assert (shape fl = [H; W; C]) as Hfs by done.
  assert (well_formed fl) as Hfwf
    by (unfold well_formed, fl, astype; simpl; by rewrite length_fmap).
  destruct (reverse_axis2_3d fl H W C Hfs Hfwf) as (bgr & -> & Hbs & Hbwf & Hbi).
  destruct (transpose_201 bgr H W C Hbs Hbwf) as (t & Ht & Hts & Htwf & Hti).
  exists t. split_and!; [done..| |].
  - intros c h w Hc Hh Hw. rewrite Hti, Hbi by done. apply item3_astype.
  - intros mean_image. rewrite bind_Ok, Ht, bind_Ok. by destruct (isub _ _ _).
Qed.

(** X3: a mean image is not required to have the shape of the image: an axis
    of length 1 is stretched.  For an image in (H, W, C) layout and a mean
    image of three axes, each of the length of the matching axis of
    (C, H, W) or of length 1 (a mean per channel, of shape (C, 1, 1), say),
    the preprocessor subtracts from item (c, h, w) the item of the mean image
    at (c, h, w) with 0 in place of the index on each axis of length 1. *)
Theorem get_preprocessed_image_broadcast (my_image : ndarray Z)
    (mean_image : ndarray M) (H W C mc mh mw : nat) :
  shape my_image = [H; W; C] → well_formed my_image →
  shape mean_image = [mc; mh; mw] → well_formed mean_image →
  mc = C ∨ mc = 1 → mh = H ∨ mh = 1 → mw = W ∨ mw = 1 →
  ∃ x, get_preprocessed_image float32_of fsub my_image mean_image = Ok x ∧
       shape x = [C; H; W] ∧
       ∀ c h w, c < C → h < H → w < W →
         ∃ px mv,
           item3 my_image h w (C - 1 - c) = Some px ∧
           item3 mean_image (if mc =? 1 then 0 else c) (if mh =? 1 then 0 else h)
                            (if mw =? 1 then 0 else w) = Some mv ∧
           item3 x c h w = Some (fsub (float32_of px) mv).
Proof.
  intros Hs Hwf Hms Hmwf Hc Hh Hw.
  destruct (get_preprocessed_image_transposed my_image H W C Hs Hwf)
    as (t & Hts & Htwf & Hti & ->).
  destruct (isub_broadcast3 fsub t mean_image C H W mc mh mw)
    as (x & -> & Hxs & Hxi); [done..|].
  exists x. split; [done|]. split; [done|].
  intros c h w Hc' Hh' Hw'.
  destruct (item3_is_Some my_image H W C h w (C - 1 - c)) as [px Hpx]; [done..|lia|].
  destruct (item3_is_Some mean_image mc mh mw (if mc =? 1 then 0 else c)
              (if mh =? 1 then 0 else h) (if mw =? 1 then 0 else w)) as [mv Hmv];
    [done|done|by eapply stretched_lt..|].
  exists px, mv. split_and!; [done..|].
  by rewrite Hxi, Hti, Hpx, Hmv by done.
Qed.

(** X4: what the preprocessor refuses: an image of fewer than three axes
    (IndexError, at the slice), an image of more than three axes (ValueError,
    at the transpose), and, for an image in (H, W, C) layout and a mean image
    of three axes, a mean image with an axis that has neither length 1 nor
    the length of the matching axis of (C, H, W) (ValueError, at the
    subtraction). *)
Theorem get_preprocessed_image_rejects (my_image : ndarray Z) (mean_image : ndarray M) :
  (length (shape my_image) < 3 →
   get_preprocessed_image float32_of fsub my_image mean_image = Raise IndexError) ∧
  (3 < length (shape my_image) →
   get_preprocessed_image float32_of fsub my_image mean_image = Raise ValueError) ∧
  (∀ H W C mc mh mw,
     shape my_image = [H; W; C] → shape mean_image = [mc; mh; mw] →
     ¬ ((mc = C ∨ mc = 1) ∧ (mh = H ∨ mh = 1) ∧ (mw = W ∨ mw = 1)) →
     get_preprocessed_image float32_of fsub my_image mean_image = Raise ValueError).
Proof.
  unfold get_preprocessed_image, reverse_axis2.
  change (shape (astype float32_of my_image)) with (shape my_image).
  split_and!.
  - intros Hlt. by destruct (shape my_image) as [|d0 [|d1 [|d2 rest]]];
      [..|simpl in Hlt; lia].
  - intros Hgt. destruct (shape my_image) as [|d0 [|d1 [|d2 [|d3 rest]]]];
      [simpl in Hgt; lia..|done].
  - intros H W C mc mh mw -> Hms Hbad.
    rewrite bind_Ok. unfold transpose at 1. cbn [shape].
    change (is_axes3 2 0 1) with true. cbv iota. rewrite bind_Ok.
    unfold isub. cbn [shape nth]. rewrite Hms.
    destruct (broadcastable [mc; mh; mw] [C; H; W]) eqn:Hb; [|done].
    exfalso. apply Hbad. unfold broadcastable in Hb. cbn [length] in Hb.
    rewrite Nat.sub_diag, drop_0 in Hb. cbn [zip zip_with forallb] in Hb.
    rewrite !andb_true_iff, !orb_true_iff, !Nat.eqb_eq in Hb. tauto.
Qed.

End PreprocessorShapes.

Lemma get_preprocessed_image_broadcast_witness :
  ∃ x, get_preprocessed_image id Z.sub (mk_ndarray [2; 2; 3] (ramp 12))
         (mk_ndarray [3; 1; 1] [100; 200; 300]%Z) = Ok x ∧
       item3 x 0 1 1 = Some (-89)%Z.
Proof.
  destruct (get_preprocessed_image_broadcast id Z.sub
              (mk_ndarray [2; 2; 3] (ramp 12))
              (mk_ndarray [3; 1; 1] [100; 200; 300]%Z) 2 2 3 3 1 1
              eq_refl eq_refl eq_refl eq_refl)
    as (x & Hx & _ & Hitem); [by left|by right|by right|].
  exists x. split; [exact Hx|].
  destruct (Hitem 0 1 1) as (px & mv & Hpx & Hmv & ->); [lia..|].
  vm_compute in Hpx, Hmv. injection Hpx as <-. injection Hmv as <-. reflexivity.
Defined.

Lemma get_preprocessed_image_rejects_witness :
  get_preprocessed_image id Z.sub (array (ramp 3072)) zero_mean = Raise IndexError ∧
  get_preprocessed_image id Z.sub (mk_ndarray [1; 32; 32; 3] (ramp 3072)) zero_mean
  = Raise ValueError ∧
  get_preprocessed_image id Z.sub (mk_ndarray [2; 2; 3] (ramp 12)) zero_mean
  = Raise ValueError.
Proof.
  split_and!.
  - apply (proj1 (get_preprocessed_image_rejects id Z.sub
                    (array (ramp 3072)) zero_mean)). simpl. lia.
  - apply (proj1 (proj2 (get_preprocessed_image_rejects id Z.sub
                           (mk_ndarray [1; 32; 32; 3] (ramp 3072)) zero_mean))).
    simpl. lia.
  - apply (proj2 (proj2 (get_preprocessed_image_rejects id Z.sub
                           (mk_ndarray [2; 2; 3] (ramp 12)) zero_mean))
             2 2 3 3 32 32 eq_refl eq_refl). lia.
Defined.

(** ** Cells 7 and 8: where a worker stops, and splitting a partition *)

Lemma for_each_app {A} (it1 it2 : iterator A) (body : A → gen unit) :
  for_each (it1 ++ it2) body
  = match for_each it1 body with
    | (tr, Ok _) => (tr ++ (for_each it2 body).1, (for_each it2 body).2)
    | (tr, Raise e) => (tr, Raise e)
    end.
Proof.
  induction it1 as [|r it1 IH].
  { cbn [for_each app]. unfold mret, gen_ret. by destruct (for_each it2 body). }
  rewrite <- app_comm_cons. cbn [for_each]. rewrite IH.
  destruct r as [x|e]; [|done]. rewrite !lift_bind_Ok.
  unfold mbind, gen_bind. destruct (body x) as [tr [[]|e]]; [|done].
  destruct (for_each it1 body) as [tr1 [[]|e]]; [|done].
  cbn [fst snd]. by rewrite app_assoc.
Qed.

Lemma yields_app (tr1 tr2 : list event) : yields (tr1 ++ tr2) = yields tr1 ++ yields tr2.
Proof. unfold yields. apply bind_app. Qed.

Lemma loads_app (tr1 tr2 : list event) : loads (tr1 ++ tr2) = loads tr1 ++ loads tr2.
Proof. unfold loads. apply bind_app. Qed.

Section WorkerMore.
Context {F M Model : Type}.
Context (float32_of : Z → F) (fsub : F → M → F).
Context (SparkFiles_get : string → string).
Context (load_model : string → result Model).
Context (model_eval : Model → ndarray F → result (ndarray Q)).
Context (mean_image : ndarray M).

Local Abbreviation path := (SparkFiles_get "./model.dnn"%string).
Local Abbreviation worker :=
  (run_worker float32_of fsub SparkFiles_get load_model model_eval mean_image).
Local Abbreviation score := (score_record float32_of fsub model_eval mean_image).
Local Abbreviation partition_scorer :=
  (labelled_images float32_of fsub SparkFiles_get load_model model_eval mean_image).

(** X5: a worker stops at the first record that cannot be scored, whatever
    the cause (the iterator raises, the preprocessing raises, the model
    raises, the model returns no score): it has yielded the results of the
    records before it, it ends with the exception of that record, and the
    records after it are not scored. *)
Theorem run_worker_stops_at_first_failure (loaded_model : Model)
    (good rest : iterator record) (bad : result record)
    (results : list (Z * Z)) (e : exn) :
  load_model path = Ok loaded_model →
  Forall2 (λ r res, r ≫= score loaded_model = Ok res) good results →
  bad ≫= score loaded_model = Raise e →
  worker (good ++ bad :: rest)
  = (LoadModel path :: (uncurry Yield <$> results), Raise e) ∧
  worker (good ++ bad :: rest) = worker (good ++ [bad]).
Proof.
  intros Hload Hgood Hbad. rewrite !run_worker_unfold, Hload.
  by rewrite !(for_each_stops float32_of fsub model_eval mean_image
                 loaded_model good _ bad results e).
Qed.

(** X6: a dataset row that does not hold 3072 pixels is found when the worker
    pulls it, not before: the model is loaded, the rows before it are scored
    and yielded, and the worker ends with the ValueError of the reshape. *)
Theorem labelled_images_malformed_row (loaded_model : Model)
    (good rest : list record) (bad : record) (results : list (Z * Z)) :
  load_model path = Ok loaded_model →
  Forall2 (λ rec res, reshape_image rec ≫= score loaded_model = Ok res)
    good results →
  length (data bad.1.1) ≠ 3072 →
  partition_scorer (good ++ bad :: rest)
  = (LoadModel path :: (uncurry Yield <$> results), Raise ValueError).
Proof.
  intros Hload Hgood Hbad. unfold labelled_images.
  rewrite run_worker_unfold, Hload.
  unfold rdd_map, iter. rewrite !fmap_app, !fmap_cons.
  rewrite (for_each_stops float32_of fsub model_eval mean_image loaded_model
             _ _ _ results ValueError); [done| |].
  - rewrite <- list_fmap_compose. by apply Forall2_fmap_l.
  - destruct bad as [[image label] filename]. rewrite bind_Ok.
    unfold reshape_image. by rewrite (reshape_raises [3; 32; 32]).
Qed.

(** X7: scoring a partition in two pieces gives the same results: when the
    worker run over the first piece ends normally, the worker run over both
    pieces in a row yields the results of the first piece followed by those
    of the second, and ends as the worker run over the second piece does. The
    two runs load the model twice, the single run once. *)
Theorem run_worker_split (first second : iterator record) :
  (worker first).2 = Ok tt →
  yields (worker (first ++ second)).1
  = yields (worker first).1 ++ yields (worker second).1 ∧
  (worker (first ++ second)).2 = (worker second).2 ∧
  loads (worker (first ++ second)).1 = [path] ∧
  loads (worker first).1 ++ loads (worker second).1 = [path; path].
Proof.
  rewrite !run_worker_unfold. destruct (load_model path) as [m|e]; [|done].
  cbn [fst snd]. intros Hfirst. rewrite for_each_app.
  pose proof (for_each_loads float32_of fsub model_eval mean_image m first) as Hl1.
  pose proof (for_each_loads float32_of fsub model_eval mean_image m second) as Hl2.
  destruct (for_each first _) as [tr1 r1]. cbn [fst snd] in *. subst r1.
  destruct (for_each second _) as [tr2 r2]. cbn [fst snd] in *.
  change (LoadModel path :: ?tr) with ([LoadModel path] ++ tr).
  rewrite !yields_app, !loads_app, Hl1, Hl2. done.
Qed.

End WorkerMore.

Lemma run_worker_stops_at_first_failure_witness :
  stub_worker (iter [frog] ++ Raise IndexError :: iter [odd])
  = ([LoadModel "./model.dnn"; Yield 6 0], Raise IndexError).
Proof.
  apply (run_worker_stops_at_first_failure id Z.sub id stub_load stub_eval zero_mean
           tt (iter [frog]) (iter [odd]) (Raise IndexError) [(6%Z, 0%Z)] IndexError).
  - reflexivity.
  - constructor; [vm_compute; reflexivity|constructor].
  - reflexivity.
Defined.

Lemma labelled_images_malformed_row_witness :
  labelled_images id Z.sub id stub_load stub_eval zero_mean
    ([raw_frog] ++ (array (ramp 3071), 3%Z, "short.png"%string) :: [raw_odd])
  = (LoadModel "./model.dnn" :: (uncurry Yield <$> [(6%Z, 0%Z)]), Raise ValueError).
Proof.
  apply (labelled_images_malformed_row id Z.sub id stub_load stub_eval zero_mean tt).
  - reflexivity.
  - constructor; [vm_compute; reflexivity|constructor].
  - vm_compute. lia.
Defined.

Lemma run_worker_split_witness :
  yields (stub_worker (iter [frog] ++ iter [odd])).1
  = yields (stub_worker (iter [frog])).1 ++ yields (stub_worker (iter [odd])).1.
Proof.
  apply (run_worker_split id Z.sub id stub_load stub_eval zero_mean).
  vm_compute. reflexivity.
Defined.

(** ** Cell 9: the range of the percentage and the order of the results *)

Lemma num_correct_le (results : list prediction) :
  num_correct results ≤ num_total results.
Proof. apply length_filter. Qed.

Lemma num_correct_all (results : list prediction) :
  num_correct results = num_total results ↔
  Forall (λ r : prediction, r.1 = r.2) results.
Proof.
  unfold num_correct, num_total. induction results as [|r results IH]; [done|].
  rewrite filter_cons, Forall_cons.
  pose proof (length_filter (λ r : prediction, r.1 = r.2) results) as Hle.
  destruct (decide (r.1 = r.2)) as [Hr|Hr]; simpl.
  - rewrite <- IH. split; [intros; split; [done|lia]|intros [_ ?]; lia].
  - split; [lia|by intros [? _]].
Qed.

Lemma num_correct_none (results : list prediction) :
  num_correct results = 0 ↔ Forall (λ r : prediction, r.1 ≠ r.2) results.
Proof.
  unfold num_correct. induction results as [|r results IH]; [done|].
  rewrite filter_cons, Forall_cons.
  destruct (decide (r.1 = r.2)) as [Hr|Hr]; simpl.
  - split; [lia|by intros [? _]].
  - rewrite IH. split; [by intros|by intros [_ ?]].
Qed.

(** X8: for a collection that is not empty the percentage lies between 0
    and 100; it is 100 exactly when every result is correct and 0 exactly
    when none is. *)
Theorem accuracy_percent_range (results : list prediction) :
  results ≠ [] →
  ∃ q, accuracy_percent results = Ok q ∧ (0 <= q)%Q ∧ (q <= 100)%Q ∧
       ((q == 100)%Q ↔ Forall (λ r : prediction, r.1 = r.2) results) ∧
       ((q == 0)%Q ↔ Forall (λ r : prediction, r.1 ≠ r.2) results).
Proof.
  intros Hne.
  pose proof (num_correct_all results) as Hall.
  pose proof (num_correct_none results) as Hnone.
  pose proof (num_correct_le results) as Hle.
  unfold accuracy_percent, truediv. unfold num_total in *.
  assert (0 < length results) as Hpos by (destruct results; [done|simpl; lia]).
  destruct (Z.eqb_spec (Z.of_nat (length results)) 0) as [|_]; [lia|].
  eexists. split; [done|].
  rewrite Z.sgn_pos, Z.mul_1_r, Z.abs_eq by lia.
  rewrite <- Hall, <- Hnone.
  unfold Qle, Qeq. cbn [Qnum Qden]. rewrite Z2Pos.id by lia.
  split_and!; lia.
Qed.

Lemma accuracy_percent_range_witness :
  ∃ q, accuracy_percent [(3, 3); (5, 3)]%Z = Ok q ∧ (0 <= q)%Q ∧ (q <= 100)%Q.
Proof.
  destruct (accuracy_percent_range [(3, 3); (5, 3)]%Z) as (q & Hq & H0 & H100 & _).
  - discriminate.
  - exists q. split_and!; [exact Hq|exact H0|exact H100].
Defined.

(** X9: the percentage does not depend on the order of the results: two
    collections with the same results in any order (the partitions collected
    in another order, say) give the same outcome, the same percentage or the
    same ZeroDivisionError. *)
Theorem accuracy_percent_order (results results' : list prediction) :
  results ≡ₚ results' → accuracy_percent results = accuracy_percent results'.
Proof.
  intros Hperm. unfold accuracy_percent, num_correct, num_total.
  by rewrite Hperm.
Qed.

Lemma accuracy_percent_order_witness :
  accuracy_percent [(3, 3); (5, 3); (1, 1)]%Z
  = accuracy_percent [(1, 1); (3, 3); (5, 3)]%Z.
Proof.
  apply accuracy_percent_order.
  change ([(3, 3); (5, 3)] ++ [(1, 1)] ≡ₚ [(1, 1)] ++ [(3, 3); (5, 3)])%Z.
  apply Permutation_app_comm.
Defined.

(** ** Cell 12: what the confusion matrix counts *)

Lemma count_pair_cons (r : prediction) (results : list prediction) (t p : Z) :
  count_pair (r :: results) t p
  = (if decide (r = (t, p)) then 1 else 0) + count_pair results t p.
Proof. unfold count_pair. rewrite filter_cons. by destruct (decide _). Qed.

Lemma sum_list_fmap_plus {A} (f g : A → nat) (l : list A) :
  sum_list ((λ x, f x + g x) <$> l) = sum_list (f <$> l) + sum_list (g <$> l).
Proof. induction l as [|x l IH]; csimpl; [done|]. rewrite IH. lia. Qed.

Lemma sum_list_fmap_zero {A} (l : list A) : sum_list ((λ _, 0) <$> l) = 0.
Proof. by induction l. Qed.

Lemma sum_indicator (l : list Z) (x : Z) :
  NoDup l →
  sum_list ((λ t, if decide (t = x) then 1 else 0) <$> l)
  = if decide (x ∈ l) then 1 else 0.
Proof.
  induction 1 as [|t l Hnotin _ IH]; [done|].
  rewrite fmap_cons. csimpl. rewrite IH. clear IH.
  destruct (decide (t = x)) as [->|Hne], (decide (x ∈ l)) as [Hl|Hl],
    (decide (x ∈ _ :: l)) as [Hc|Hc]; try done.
  - exfalso. apply Hc, list_elem_of_here.
  - exfalso. by apply Hc, list_elem_of_further.
  - exfalso. by apply elem_of_cons in Hc as [->|?].
Qed.

Lemma sum_row_indicator (labels : list Z) (r : prediction) (t : Z) :
  NoDup labels →
  sum_list ((λ p, if decide (r = (t, p)) then 1 else 0) <$> labels)
  = if decide (r.1 = t ∧ r.2 ∈ labels) then 1 else 0.
Proof.
  intros Hnodup. destruct r as [rt rp]. cbn [fst snd].
  destruct (decide (rt = t)) as [->|Hne].
  - rewrite (list_fmap_ext _ (λ p, if decide (p = rp) then 1 else 0)).
    + rewrite sum_indicator by done.
      destruct (decide (rp ∈ labels)); [by rewrite decide_True|].
      rewrite decide_False; [done|]. by intros [_ ?].
    + intros _ p _. destruct (decide (p = rp)) as [->|Hp].
      * by rewrite decide_True.
      * rewrite decide_False; [done|]. by intros [= ->].
  - rewrite (list_fmap_ext _ (λ _, 0)).
    + rewrite sum_list_fmap_zero, decide_False; [done|]. by intros [? _].
    + intros _ p _. rewrite decide_False; [done|]. by intros [= ->].
Qed.

Lemma sum_diagonal_indicator (labels : list Z) (r : prediction) :
  NoDup labels → r.1 ∈ labels →
  sum_list ((λ t, if decide (r = (t, t)) then 1 else 0) <$> labels)
  = if decide (r.1 = r.2) then 1 else 0.
Proof.
  intros Hnodup Hin. destruct r as [rt rp]. cbn [fst snd] in *.
  destruct (decide (rt = rp)) as [->|Hne].
  - rewrite (list_fmap_ext _ (λ t, if decide (t = rp) then 1 else 0)).
    + rewrite sum_indicator by done. by rewrite decide_True.
    + intros _ t _. destruct (decide (t = rp)) as [->|Ht].
      * by rewrite decide_True.
      * rewrite decide_False; [done|]. by intros [= ->].
  - rewrite (list_fmap_ext _ (λ _, 0)).
    + by rewrite sum_list_fmap_zero.
    + intros _ t _. rewrite decide_False; [done|]. intros [= -> ->]. done.
Qed.

Lemma sum_row (labels : list Z) (results : list prediction) (t : Z) :
  NoDup labels →
  sum_list (count_pair results t <$> labels)
  = length (filter (λ r : prediction, r.1 = t ∧ r.2 ∈ labels) results).
Proof.
  intros Hnodup. induction results as [|r results IH].
  { rewrite filter_nil. apply sum_list_fmap_zero. }
  rewrite (list_fmap_ext _ (λ p, (if decide (r = (t, p)) then 1 else 0)
                                 + count_pair results t p))
    by (intros; apply count_pair_cons).
  rewrite sum_list_fmap_plus, IH, sum_row_indicator, filter_cons by done.
  by destruct (decide _).
Qed.

Lemma sum_diagonal (labels : list Z) (results : list prediction) :
  NoDup labels → Forall (λ r : prediction, r.1 ∈ labels) results →
  sum_list ((λ t, count_pair results t t) <$> labels) = num_correct results.
Proof.
  intros Hnodup. induction 1 as [|r results Hr _ IH].
  { apply sum_list_fmap_zero. }
  rewrite (list_fmap_ext _ (λ t, (if decide (r = (t, t)) then 1 else 0)
                                 + count_pair results t t))
    by (intros; apply count_pair_cons).
  rewrite sum_list_fmap_plus, IH, sum_diagonal_indicator by done.
  unfold num_correct. rewrite filter_cons. by destruct (decide _).
Qed.

(** The matrix of the cell, written out. *)
Lemma confusion_cell_matrix (results : list prediction) :
  results ≠ [] →
  Forall (λ r : prediction, 0 ≤ r.1 < 10)%Z results →
  ∃ named_labels,
    confusion_cell results
    = Ok (sorted_unique results.*1, named_labels,
          (λ t, count_pair results t <$> sorted_unique results.*1)
            <$> sorted_unique results.*1).
Proof.
  intros Hne Hrange. unfold confusion_cell.
  destruct (mapM_getitem label_to_name_dict (sorted_unique results.*1))
    as (names & -> & _).
  { apply Forall_forall. intros t Ht. apply class_has_name.
    apply (proj1 (elem_of_sorted_unique _ _)) in Ht.
    apply list_elem_of_fmap in Ht as (r & -> & Hr).
    by eapply Forall_forall in Hrange. }
  assert (∃ t0, t0 ∈ results.*1) as [t0 Ht0].
  { destruct results as [|r0 ?]; [done|]. exists r0.1.
    rewrite fmap_cons. apply list_elem_of_here. }
  rewrite bind_Ok, (confusion_matrix_ok results _ t0), bind_Ok;
    [by exists names|by apply elem_of_sorted_unique|done].
Qed.

(** X10: the diagonal of the confusion matrix adds up to the number of
    correct results of the accuracy cell. *)
Theorem confusion_cell_diagonal (results : list prediction) :
  results ≠ [] →
  Forall (λ r : prediction, 0 ≤ r.1 < 10)%Z results →
  ∃ labels named_labels cm,
    confusion_cell results = Ok (labels, named_labels, cm) ∧
    sum_list (imap (λ i row, default 0 (row !! i)) cm) = num_correct results.
Proof.
  intros Hne Hrange.
  destruct (confusion_cell_matrix results Hne Hrange) as [names Hrun].
  eexists _, _, _. split; [done|].
  destruct (sorted_unique_sorted results.*1) as [_ Hnodup].
  set (labels := sorted_unique results.*1) in *.
  rewrite <- (sum_diagonal labels results Hnodup).
  - f_equal. rewrite imap_fmap. apply list_eq. intros i.
    rewrite list_lookup_imap, list_lookup_fmap.
    destruct (labels !! i) as [t|] eqn:Hi; [|done]. simpl.
    by rewrite list_lookup_fmap, Hi.
  - apply Forall_forall. intros r Hr. apply elem_of_sorted_unique.
    by apply list_elem_of_fmap_2.
Qed.

Lemma confusion_cell_diagonal_witness :
  ∃ labels named_labels cm,
    confusion_cell [(0, 0); (1, 0); (1, 1)]%Z = Ok (labels, named_labels, cm) ∧
    sum_list (imap (λ i row, default 0 (row !! i)) cm) = 2.
Proof.
  destruct (confusion_cell_diagonal [(0, 0); (1, 0); (1, 1)]%Z)
    as (labels & named_labels & cm & Hrun & Hsum).
  - discriminate.
  - repeat constructor; simpl; lia.
  - exists labels, named_labels, cm. split; [exact Hrun|exact Hsum].
Defined.

(** X11: a row of the confusion matrix adds up to the number of results with
    the true label of the row whose predicted label is one of the labels of
    the matrix: a result whose predicted label is the true label of no result
    is counted nowhere. *)
Theorem confusion_cell_row_sum (results : list prediction) :
  results ≠ [] →
  Forall (λ r : prediction, 0 ≤ r.1 < 10)%Z results →
  ∃ labels named_labels cm,
    confusion_cell results = Ok (labels, named_labels, cm) ∧
    ∀ i t row, labels !! i = Some t → cm !! i = Some row →
      sum_list row
      = length (filter (λ r : prediction, r.1 = t ∧ r.2 ∈ labels) results).
Proof.
  intros Hne Hrange.
  destruct (confusion_cell_matrix results Hne Hrange) as [names Hrun].
  eexists _, _, _. split; [done|].
  destruct (sorted_unique_sorted results.*1) as [_ Hnodup].
  intros i t row Hi Hrow. rewrite list_lookup_fmap, Hi in Hrow.
  injection Hrow as <-. by apply sum_row.
Qed.

Lemma confusion_cell_row_sum_witness :
  ∃ labels named_labels cm,
    confusion_cell [(0, 0); (0, 7); (1, 0)]%Z = Ok (labels, named_labels, cm) ∧
    cm = [[1; 0]; [1; 0]].
Proof.
  destruct (confusion_cell_row_sum [(0, 0); (0, 7); (1, 0)]%Z)
    as (labels & named_labels & cm & Hrun & _).
  - discriminate.
  - repeat constructor; simpl; lia.
  - exists labels, named_labels, cm. split; [exact Hrun|].
    vm_compute in Hrun. by injection Hrun as _ _ <-.
Defined.

Lemma mapM_getitem_missing {V} (d : gmap Z V) (keys : list Z) (k : Z) :
  k ∈ keys → d !! k = None → mapM (getitem d) keys = Raise KeyError.
Proof.
  intros Hin Hk. induction keys as [|k' keys IH]; [by apply elem_of_nil in Hin|].
  cbn [mapM]. destruct (d !! k') as [v|] eqn:Hk'.
  - assert (getitem d k' = Ok v) as -> by (unfold getitem; by rewrite Hk').
    apply elem_of_cons in Hin as [->|Hin]; [congruence|].
    by rewrite bind_Ok, IH.
  - by assert (getitem d k' = Raise KeyError) as ->
      by (unfold getitem; by rewrite Hk').
Qed.

Lemma class_without_name (t : Z) :
  ¬ (0 ≤ t < 10)%Z → label_to_name_dict !! t = None.
Proof.
  intros Ht. apply not_elem_of_list_to_map_1. cbn [fmap list_fmap fst].
  rewrite !not_elem_of_cons. split_and!; [lia..|apply not_elem_of_nil].
Qed.

(** X12: only the true labels are looked up in [label_to_name_dict]: when a
    result has a true label that is no class 0 to 9 the cell raises KeyError
    and no matrix is built, whatever the other results are; the predicted
    labels are never looked up. *)
Theorem confusion_cell_unknown_true_label (results : list prediction) (r : prediction) :
  r ∈ results → ¬ (0 ≤ r.1 < 10)%Z → confusion_cell results = Raise KeyError.
Proof.
  intros Hr Hrange. unfold confusion_cell.
  rewrite (mapM_getitem_missing _ _ r.1); [done| |by apply class_without_name].
  apply elem_of_sorted_unique. by apply list_elem_of_fmap_2.
Qed.

Lemma confusion_cell_unknown_true_label_witness :
  confusion_cell [(0, 0); (12, 0)]%Z = Raise KeyError.
Proof.
  apply (confusion_cell_unknown_true_label _ (12, 0)%Z).
  - apply list_elem_of_further, list_elem_of_here.
  - simpl. lia.
Defined.

Lemma sorted_unique_Permutation (l l' : list Z) :
  l ≡ₚ l' → sorted_unique l = sorted_unique l'.
Proof.
  intros Hperm.
  destruct (sorted_unique_sorted l) as [Hs Hn], (sorted_unique_sorted l') as [Hs' Hn'].
  apply (Sorted_unique Z.le); [done..|].
  apply NoDup_Permutation; [done..|].
  intros x. rewrite !elem_of_sorted_unique. by rewrite Hperm.
Qed.

Lemma count_pair_Permutation (results results' : list prediction) (t p : Z) :
  results ≡ₚ results' → count_pair results t p = count_pair results' t p.
Proof. intros Hperm. unfold count_pair. by rewrite Hperm. Qed.

(** X13: the confusion-matrix cell does not depend on the order of the
    results: two collections with the same results in any order give the
    same labels, names and matrix, or the same exception. *)
Theorem confusion_cell_order (results results' : list prediction) :
  results ≡ₚ results' → confusion_cell results = confusion_cell results'.
Proof.
  intros Hperm. unfold confusion_cell.
  assert (results.*1 ≡ₚ results'.*1) as Hfst by by rewrite Hperm.
  rewrite (sorted_unique_Permutation _ _ Hfst).
  destruct (mapM _ _) as [names|e]; [|done]. rewrite !bind_Ok.
  assert (confusion_matrix results (sorted_unique results'.*1)
          = confusion_matrix results' (sorted_unique results'.*1)) as ->; [|done].
  unfold confusion_matrix.
  assert (∀ labels,
    forallb (λ l, bool_decide (l ∉ results.*1)) labels
    = forallb (λ l, bool_decide (l ∉ results'.*1)) labels) as ->.
  { intros labels. induction labels as [|l labels IH]; [done|].
    cbn [forallb]. rewrite IH. f_equal. apply bool_decide_ext. by rewrite Hfst. }
  destruct (forallb _ _); [done|]. f_equal.
  apply list_fmap_ext. intros _ t _. apply list_fmap_ext. intros _ p _.
  by apply count_pair_Permutation.
Qed.

Lemma confusion_cell_order_witness :
  confusion_cell [(0, 0); (1, 0); (1, 1)]%Z = confusion_cell [(1, 1); (0, 0); (1, 0)]%Z.
Proof.
  apply confusion_cell_order.
  change ([(0, 0); (1, 0)] ++ [(1, 1)] ≡ₚ [(1, 1)] ++ [(0, 0); (1, 0)])%Z.
  apply Permutation_app_comm.
Defined.

(** ** Cells 7 and 8: a normal end, and the scale of the scores *)

Section WorkerEnd.
Context {F M Model : Type}.
Context (float32_of : Z → F) (fsub : F → M → F).
Context (SparkFiles_get : string → string).
Context (load_model : string → result Model).
Context (model_eval : Model → ndarray F → result (ndarray Q)).
Context (mean_image : ndarray M).

Local Abbreviation path := (SparkFiles_get "./model.dnn"%string).
Local Abbreviation score := (score_record float32_of fsub model_eval mean_image).
Local Abbreviation partition_scorer :=
  (labelled_images float32_of fsub SparkFiles_get load_model model_eval mean_image).
Local Abbreviation body loaded_model := (λ rec : record,
  preprocessed_image ←
    lift (get_preprocessed_image float32_of fsub rec.1.1 mean_image);
  dnn_output ← lift (model_eval loaded_model preprocessed_image);
  predicted ← lift (argmax (squeeze dnn_output));
  yield rec.1.2 (Z.of_nat predicted)).

Lemma for_each_ok_inv (loaded_model : Model) (it : iterator record) :
  (for_each it (body loaded_model)).2 = Ok tt →
  ∃ results,
    Forall2 (λ r res, r ≫= score loaded_model = Ok res) it results ∧
    (for_each it (body loaded_model)).1 = uncurry Yield <$> results.
Proof.
  induction it as [|r it IH]; [by exists []|].
  destruct (r ≫= score loaded_model) as [res|e] eqn:Hr.
  - rewrite (for_each_cons_ok _ _ _ _ _ _ _ _ Hr). cbn [fst snd]. intros Hend.
    destruct (IH Hend) as (results & Hall & ->).
    exists (res :: results). split; [by constructor|]. by destruct res.
  - by rewrite (for_each_cons_raise _ _ _ _ _ _ _ _ Hr).
Qed.

(** X14: the partition scorer skips nothing: when it ends normally the model
    was loaded, every row of the partition held 3072 pixels, and it has
    yielded as many results as the partition has rows. *)
Theorem labelled_images_normal_end (partition : list record) :
  (partition_scorer partition).2 = Ok tt →
  (∃ loaded_model, load_model path = Ok loaded_model) ∧
  Forall (λ rec : record, length (data rec.1.1) = 3072) partition ∧
  length (yields (partition_scorer partition).1) = length partition.
Proof.
  unfold labelled_images. rewrite run_worker_unfold.
  destruct (load_model path) as [m|e]; [|done]. cbn [fst snd]. intros Hend.
  apply for_each_ok_inv in Hend as (results & Hall & ->).
  split; [by exists m|]. unfold rdd_map, iter in Hall.
  rewrite <- list_fmap_compose in Hall. apply Forall2_fmap_l in Hall.
  split.
  - apply Forall_forall. intros rec Hrec.
    apply list_elem_of_lookup in Hrec as [i Hi].
    destruct (Forall2_lookup_l _ _ _ _ _ Hall Hi) as (res & _ & Hres).
    unfold compose in Hres. cbv beta in Hres. rewrite bind_Ok in Hres.
    destruct (decide (length (data rec.1.1) = 3072)) as [|Hlen]; [done|].
    destruct rec as [[image label] filename]. unfold reshape_image in Hres.
    by rewrite (reshape_raises [3; 32; 32]) in Hres.
  - rewrite (yields_results SparkFiles_get). symmetry. by eapply Forall2_length.
Qed.

End WorkerEnd.

Lemma labelled_images_normal_end_witness :
  length (yields (labelled_images id Z.sub id stub_load stub_eval zero_mean
                    [raw_frog; raw_odd]).1) = 2.
Proof.
  apply (labelled_images_normal_end id Z.sub id stub_load stub_eval zero_mean
           [raw_frog; raw_odd]).
  vm_compute. reflexivity.
Defined.

Lemma Qlt_bool_ext (f : Q → Q) (x y : Q) :
  (∀ u v, (u < v)%Q ↔ (f u < f v)%Q) → Qlt_bool (f x) (f y) = Qlt_bool x y.
Proof.
  intros Hf. destruct (Qlt_bool x y) eqn:Hxy, (Qlt_bool (f x) (f y)) eqn:Hfxy;
    try done; exfalso.
  - apply Qlt_bool_true, Hf in Hxy. apply Qlt_bool_false in Hfxy.
    by apply Qlt_not_le in Hxy.
  - apply Qlt_bool_true, Hf in Hfxy. apply Qlt_bool_false in Hxy.
    by apply Qlt_not_le in Hfxy.
Qed.

Lemma argmax_from_fmap (f : Q → Q) (l : list Q) (best i : nat) (v : Q) :
  (∀ u v, (u < v)%Q ↔ (f u < f v)%Q) →
  argmax_from best (f v) i (f <$> l) = argmax_from best v i l.
Proof.
  intros Hf. revert best i v. induction l as [|x l IH]; intros best i v; [done|].
  rewrite fmap_cons. cbn [argmax_from]. rewrite Qlt_bool_ext by done.
  destruct (Qlt_bool v x); apply IH.
Qed.

(** X15: the predicted class depends on the order of the scores only: a
    strictly increasing change of the scores of the model (another scale,
    probabilities in place of the scores they are computed from) leaves
    [np.argmax(np.squeeze(dnn_output))] as it is. *)
Theorem argmax_increasing (f : Q → Q) (dnn_output : ndarray Q) :
  (∀ u v, (u < v)%Q ↔ (f u < f v)%Q) →
  argmax (squeeze (astype f dnn_output)) = argmax (squeeze dnn_output).
Proof.
  intros Hf. unfold argmax, squeeze, astype. cbn [data].
  destruct (data dnn_output) as [|x l]; [done|].
  rewrite fmap_cons. by rewrite argmax_from_fmap.
Qed.

Lemma argmax_increasing_witness :
  argmax (squeeze (astype (λ x, 2 * x + 1)%Q
                     (mk_ndarray [1; 3] [inject_Z 1; inject_Z 5; inject_Z 5])))
  = Ok 1.
Proof.
  rewrite argmax_increasing; [reflexivity|].
  intros u v. split; intros H.
  - apply Qplus_lt_l, Qmult_lt_l; [reflexivity|exact H].
  - apply Qplus_lt_l, Qmult_lt_l in H; [exact H|reflexivity].
Defined.
